(** * GitHub webhook monitor: the ingestion pipeline and the feed of [app.py]

    The Flask application receives GitHub notifications on [/webhook],
    turns push and pull-request payloads into event documents, stores them
    in one MongoDB collection unless a document with the same [request_id]
    is already there, and serves them on [/events] sorted by timestamp with
    a display rendering of each timestamp.

    Python values are embedded as follows.  A decoded JSON body is a [json]
    tree; a [str] is the [string] of its UTF-8 bytes (splitting on ["/"],
    comparing, concatenating and replacing ASCII text commute with the
    encoding); an [int] is a [Z]; a [float] is a [spec_float]; a raised
    exception is the [Raise] branch of [result].  The collection is the list
    of the documents inserted so far, oldest first, together with the
    answers the server will give to the next calls. *)

From Stdlib Require Import List String Ascii ZArith Bool Lia.
From Stdlib Require Import Sorting.Sorted Sorting.Permutation.
From Stdlib Require Import Numbers.DecimalString.
From Stdlib Require Numbers.DecimalPos Numbers.DecimalZ.
From Stdlib Require Import Floats.SpecFloat.
Import ListNotations.

Local Open Scope string_scope.
Local Open Scope Z_scope.

(** ** Decoded JSON values *)

Set Warnings "-register-all".


Inductive json : Type :=
| JNull
| JBool (b : bool)
| JInt (z : Z)
| JFloat (f : spec_float)
| JStr (s : string)
| JArr (items : list json)
| JObj (fields : list (string * json)).

Definition spec_float_eq_dec (a b : spec_float) : {a = b} + {a <> b}.
Proof.
  decide equality; try apply Z.eq_dec; try apply Pos.eq_dec; apply bool_dec.
Defined.

Fixpoint json_eq_dec (a b : json) {struct a} : {a = b} + {a <> b}.
Proof.
  decide equality.
  - apply bool_dec.
  - apply Z.eq_dec.
  - apply spec_float_eq_dec.
  - apply string_dec.
  - apply (list_eq_dec json_eq_dec).
  - apply list_eq_dec. intros [k v] [k' v'].
    destruct (string_dec k k') as [->|Hk].
    + destruct (json_eq_dec v v') as [->|Hv].
      * left; reflexivity.
      * right; intro H; apply Hv; congruence.
    + right; intro H; apply Hk; congruence.
Defined.

Definition json_eqb (a b : json) : bool :=
  if json_eq_dec a b then true else false.

(** Python's truth value of a decoded JSON value, as [if x:] tests it. *)
Definition truthy (v : json) : bool :=
  match v with
  | JNull => false
  | JBool b => b
  | JInt z => negb (z =? 0)
  | JFloat (S754_zero _) => false
  | JFloat _ => true
  | JStr s => negb (s =? "")%string
  | JArr items => match items with [] => false | _ => true end
  | JObj fields => match fields with [] => false | _ => true end
  end.

(** ** Exceptions *)

Inductive exn : Type :=
| KeyError (key : string)
| TypeError
| AttributeError
| StoreError (msg : string).

Inductive result (A : Type) : Type :=
| Ok (a : A)
| Raise (e : exn).
Arguments Ok {A} a.
Arguments Raise {A} e.

Definition rbind {A B} (r : result A) (k : A -> result B) : result B :=
  match r with
  | Ok a => k a
  | Raise e => Raise e
  end.

Declare Scope result_scope.
Delimit Scope result_scope with result.
Notation "x <- r ;; k" := (rbind r (fun x => k))
  (at level 61, r at next level, right associativity) : result_scope.

(** ** Subscripting and methods on decoded values *)

Fixpoint assoc (k : string) (fields : list (string * json)) : option json :=
  match fields with
  | [] => None
  | (k', v) :: rest => if (k =? k')%string then Some v else assoc k rest
  end.

(** [v[k]] with a string key: only a dict can be subscripted by a string. *)
Definition getitem (v : json) (k : string) : result json :=
  match v with
  | JObj fields =>
      match assoc k fields with
      | Some x => Ok x
      | None => Raise (KeyError k)
      end
  | _ => Raise TypeError
  end.

(** [v.get(k, default)]; the default is an already evaluated value. *)
Definition dict_get (v : json) (k : string) (default : json) : result json :=
  match v with
  | JObj fields =>
      match assoc k fields with
      | Some x => Ok x
      | None => Ok default
      end
  | _ => Raise AttributeError
  end.

(** [s.split(sep)] for a one-character separator: never the empty list. *)
Fixpoint split (sep : ascii) (s : string) : list string :=
  match s with
  | EmptyString => [EmptyString]
  | String c rest =>
      if Ascii.eqb c sep then EmptyString :: split sep rest
      else match split sep rest with
           | [] => [String c EmptyString]
           | seg :: segs => String c seg :: segs
           end
  end.

(** [v.split('/')]: only a [str] has the method. *)
Definition str_split (v : json) (sep : ascii) : result (list string) :=
  match v with
  | JStr s => Ok (split sep s)
  | _ => Raise AttributeError
  end.

(** [parts[-1]] on the list [split] returns. *)
Definition last_item (parts : list string) : string :=
  List.last parts EmptyString.

(** [x == 'literal'] for a decoded value [x]. *)
Definition eq_str (v : json) (lit : string) : bool :=
  match v with
  | JStr s => (s =? lit)%string
  | _ => false
  end.

(** [str(n)] for an [int]. *)
Definition str_of_int (n : Z) : string :=
  NilZero.string_of_int (Z.to_int n).

(** [s.replace(old, new)]: the occurrences of [old] are taken from the left
    and do not overlap.  [skip] counts the characters of the occurrence just
    replaced that are still to be passed over. *)
Fixpoint replace_from (old new : string) (skip : nat) (s : string) : string :=
  match s with
  | EmptyString => EmptyString
  | String c rest =>
      match skip with
      | S k => replace_from old new k rest
      | O =>
          if String.prefix old s
          then new ++ replace_from old new (String.length old - 1) rest
          else String c (replace_from old new 0 rest)
      end
  end.

(** With an empty [old], Python puts [new] around every character. *)
Fixpoint intersperse (new s : string) : string :=
  match s with
  | EmptyString => new
  | String c rest => new ++ String c (intersperse new rest)
  end.

Definition replace (old new s : string) : string :=
  match old with
  | EmptyString => intersperse new s
  | _ => replace_from old new 0 s
  end.

(** ** Event documents and the collection *)

Inductive event_kind : Type := PUSH | PULL_REQUEST | MERGE.

(** The dict built at lines 78-85 and 130-137.  Every field but [action]
    holds whatever the payload held at the place it was read from. *)
Record event_doc : Type := {
  request_id : json;
  author : json;
  action : event_kind;
  from_branch : json;
  to_branch : json;
  timestamp : json
}.

(** The collection as the handlers see it: the documents inserted so far, in
    insertion order, and for each coming call whether the server answers it
    ([None]) or the driver raises ([Some msg]: unreachable server, timeout,
    rejected write).  Once [faults] is exhausted every call is answered. *)
Record collection : Type := {
  docs : list event_doc;
  faults : list (option string)
}.

Definition store (A : Type) : Type := collection -> result A * collection.

Definition ret {A} (a : A) : store A := fun c => (Ok a, c).

Definition bind {A B} (m : store A) (k : A -> store B) : store B :=
  fun c =>
    match m c with
    | (Ok a, c') => k a c'
    | (Raise e, c') => (Raise e, c')
    end.

Definition lift {A} (r : result A) : store A := fun c => (r, c).

Declare Scope store_scope.
Delimit Scope store_scope with store.
Notation "x <- m ;; k" := (bind m (fun x => k))
  (at level 61, m at next level, right associativity) : store_scope.
Notation "m ;;; k" := (bind m (fun _ => k))
  (at level 61, right associativity) : store_scope.

(** One round trip to the server: consumes the next scheduled answer. *)
Definition server_call : store unit := fun c =>
  match faults c with
  | [] => (Ok tt, c)
  | None :: later => (Ok tt, {| docs := docs c; faults := later |})
  | Some msg :: later =>
      (Raise (StoreError msg), {| docs := docs c; faults := later |})
  end.

(** How the server reads the filter [{'request_id': k}] against the
    [request_id] [v] of a document.  A string, which is what GitHub's
    payloads make the handlers look up, matches the documents that hold this
    very string.  A dict is not compared with [v]: the server reads it as
    operators, and [{"$gt": s}] with a string [s] matches the strings greater
    than [s], byte by byte, and no value of another type.  The remaining
    filters are compared as values; the properties that rest on the answer
    of a lookup are stated for string keys and for this query. *)
Definition matches (k v : json) : bool :=
  match k with
  | JObj [(op, JStr s)] =>
      if (op =? "$gt")%string
      then match v with
           | JStr t => (s <? t)%string
           | _ => false
           end
      else json_eqb v k
  | _ => json_eqb v k
  end.

(** [collection.find_one({'request_id': k})]: the first document the filter
    matches.  The handlers pass whatever the payload held, unchecked. *)
Definition find_one (k : json) : store (option event_doc) :=
  (server_call ;;;
   fun c => (Ok (List.find (fun d => matches k (request_id d)) (docs c)), c))%store.

(** [collection.insert_one(d)]: no index constrains the collection, so the
    document is appended whatever it holds. *)
Definition insert_one (d : event_doc) : store unit :=
  (server_call ;;;
   fun c => (Ok tt, {| docs := docs c ++ [d]; faults := faults c |}))%store.

(** ** The webhook handlers *)

(** What a handler did with a notification, that is, which of its [print]
    lines ran: "... event stored", "Event ... already exists, skipping...",
    "PR action ... ignored", "Error handling ... event". *)
Inductive outcome : Type :=
| Stored (d : event_doc)
| Skipped (key : json)
| Ignored (act : json)
| Failed (e : exn).

(** [try: ... except Exception as e: print(...)] around a handler body. *)
Definition try_except (body : store outcome) (c : collection)
  : outcome * collection :=
  match body c with
  | (Ok o, c') => (o, c')
  | (Raise e, c') => (Failed e, c')
  end.

(** Lines 87-94 and 139-146: look the key up, return if a document has it,
    insert otherwise.  Two separate calls to the server. *)
Definition store_event (d : event_doc) : store outcome :=
  (found <- find_one (request_id d) ;;
   match found with
   | Some _ => ret (Skipped (request_id d))
   | None => insert_one d ;;; ret (Stored d)
   end)%store.

(** Lines 72-85: the document of a push payload. *)
Definition push_event_doc (payload : json) : result event_doc :=
  (head_commit <- getitem payload "head_commit" ;;
   request_id <- getitem head_commit "id" ;;
   pusher <- getitem payload "pusher" ;;
   author <- getitem pusher "name" ;;
   ref <- getitem payload "ref" ;;
   parts <- str_split ref "/" ;;
   let to_branch := last_item parts in
   head_commit' <- getitem payload "head_commit" ;;
   timestamp <- getitem head_commit' "timestamp" ;;
   Ok {| request_id := request_id;
         author := author;
         action := PUSH;
         from_branch := JNull;
         to_branch := JStr to_branch;
         timestamp := timestamp |})%result.

Definition handle_push_event (payload : json) (c : collection)
  : outcome * collection :=
  try_except (d <- lift (push_event_doc payload) ;; store_event d)%store c.

Section PullRequests.

(** Python's [repr] of a float, a list or a dict.  [str] returns it for
    these values; the handlers only ever put a prefix in front of it, so
    its text is left open. *)
Variable py_repr : json -> string.

(** [str(v)] for a decoded value. *)
Definition py_str (v : json) : string :=
  match v with
  | JNull => "None"
  | JBool true => "True"
  | JBool false => "False"
  | JInt n => str_of_int n
  | JStr s => s
  | JFloat _ | JArr _ | JObj _ => py_repr v
  end.

(** Lines 106-137: the document of a pull-request payload, or the action
    that made the handler return at line 127. *)
Definition pull_request_event_doc (payload : json)
  : result (json + event_doc) :=
  (act <- getitem payload "action" ;;
   pull_request <- getitem payload "pull_request" ;;
   id <- getitem pull_request "id" ;;
   let request_id := py_str id in
   user <- getitem pull_request "user" ;;
   author <- getitem user "login" ;;
   head <- getitem pull_request "head" ;;
   from_branch <- getitem head "ref" ;;
   base <- getitem pull_request "base" ;;
   to_branch <- getitem base "ref" ;;
   timestamp <-
     (if eq_str act "opened" then getitem pull_request "created_at"
      else (updated_at <- getitem pull_request "updated_at" ;;
            dict_get pull_request "merged_at" updated_at)) ;;
   merged <-
     (if eq_str act "closed" then dict_get pull_request "merged" (JBool false)
      else Ok (JBool false)) ;;
   let doc kind key :=
     {| request_id := JStr key;
        author := author;
        action := kind;
        from_branch := from_branch;
        to_branch := to_branch;
        timestamp := timestamp |} in
   if eq_str act "closed" && truthy merged
   then Ok (inr (doc MERGE ("merge_" ++ request_id)))
   else if eq_str act "opened"
   then Ok (inr (doc PULL_REQUEST ("pr_" ++ request_id)))
   else Ok (inl act))%result.

Definition handle_pull_request_event (payload : json) (c : collection)
  : outcome * collection :=
  try_except
    (r <- lift (pull_request_event_doc payload) ;;
     match r with
     | inl act => ret (Ignored act)
     | inr d => store_event d
     end)%store c.

(** ** The webhook endpoint *)

(** What [request.json] gives: the decoded body, or an exception (a body
    that is not JSON) whose text is [error]. *)
Inductive body : Type :=
| Decoded (payload : json)
| Undecodable (error : string).

Record request : Type := {
  github_event : option string;   (* request.headers.get('X-GitHub-Event') *)
  json_body : body
}.

(** [jsonify({'status': ..., 'message': ...}), code]. *)
Record response : Type := {
  status : string;
  message : option string;
  status_code : Z
}.

Definition header_is (h : option string) (lit : string) : bool :=
  match h with
  | Some s => (s =? lit)%string
  | None => false
  end.

(** Lines 43-63.  The handlers catch every exception themselves and return
    [None], so only reading the body can reach the [except] at line 61. *)
Definition webhook (req : request) (c : collection)
  : response * collection :=
  let event_type := github_event req in
  match json_body req with
  | Undecodable error =>
      ({| status := "error"; message := Some error; status_code := 500 |}, c)
  | Decoded payload =>
      let c' :=
        if header_is event_type "push"
        then snd (handle_push_event payload c)
        else if header_is event_type "pull_request"
        then snd (handle_pull_request_event payload c)
        else c in
      ({| status := "success"; message := None; status_code := 200 |}, c')
  end.

(** Notifications handled one after the other. *)
Fixpoint process (reqs : list request) (c : collection)
  : list response * collection :=
  match reqs with
  | [] => ([], c)
  | req :: later =>
      let (r, c') := webhook req c in
      let (rs, c'') := process later c' in
      (r :: rs, c'')
  end.

(** The document a notification yields when its fields can be read and
    its kind and action are handled. *)
Definition normalize (req : request) : option event_doc :=
  match json_body req with
  | Decoded payload =>
      if header_is (github_event req) "push" then
        match push_event_doc payload with
        | Ok d => Some d
        | Raise _ => None
        end
      else if header_is (github_event req) "pull_request" then
        match pull_request_event_doc payload with
        | Ok (inr d) => Some d
        | _ => None
        end
      else None
  | Undecodable _ => None
  end.

End PullRequests.

(** ** [datetime.fromisoformat]

    Which texts [datetime.fromisoformat] reads depends on the interpreter,
    and nothing in the repository names one.  Since Python 3.7 the library
    documents the grammar
    [YYYY-MM-DD[*HH[:MM[:SS[.fff[fff]]]][+HH:MM[:SS[.ffffff]]]]] with [*] any
    one character; later versions read most of ISO 8601 besides (the basic
    format, fractions of any length, week dates).  The documented grammar is
    given here as [documented_fromisoformat], with the range checks of the
    [datetime] and [timezone] constructors; the feed below is defined over
    the parser it is run with.  [None] stands for the [ValueError] the
    library raises. *)

Record datetime : Type := {
  year : Z;
  month : Z;
  day : Z;
  hour : Z;
  minute : Z;
  second : Z;
  microsecond : Z;
  utcoffset : option Z   (* microseconds east of UTC; [None] when naive *)
}.

Definition digit (c : ascii) : option Z :=
  let n := Z.of_N (N_of_ascii c) in
  if (48 <=? n) && (n <=? 57) then Some (n - 48) else None.

(** Exactly [n] decimal digits, read into [acc]. *)
Fixpoint digits (n : nat) (acc : Z) (s : string) : option (Z * string) :=
  match n with
  | O => Some (acc, s)
  | S k =>
      match s with
      | EmptyString => None
      | String c rest =>
          match digit c with
          | Some d => digits k (10 * acc + d) rest
          | None => None
          end
      end
  end.

Definition expect (c : ascii) (s : string) : option string :=
  match s with
  | String c' rest => if Ascii.eqb c c' then Some rest else None
  | EmptyString => None
  end.

Fixpoint drop (n : nat) (s : string) : string :=
  match n, s with
  | S k, String _ rest => drop k rest
  | _, _ => s
  end.

(** The separator is one character, that is, one to four bytes. *)
Definition skip_char (s : string) : string :=
  match s with
  | EmptyString => EmptyString
  | String c rest =>
      let n := Z.of_N (N_of_ascii c) in
      if n <? 128 then rest
      else if Z.land n 240 =? 224 then drop 2 rest
      else if Z.land n 240 =? 240 then drop 3 rest
      else drop 1 rest
  end.

(** [.fff] or [.ffffff] up to the end of the text, in microseconds. *)
Definition parse_fraction (s : string) : option Z :=
  match digits 6 0 s with
  | Some (us, EmptyString) => Some us
  | _ =>
      match digits 3 0 s with
      | Some (ms, EmptyString) => Some (ms * 1000)
      | _ => None
      end
  end.

(** [HH[:MM[:SS[.fff[fff]]]]], the whole of [s]. *)
Definition parse_hh_mm_ss_ff (s : string) : option (Z * Z * Z * Z) :=
  match digits 2 0 s with
  | None => None
  | Some (h, EmptyString) => Some (h, 0, 0, 0)
  | Some (h, r1) =>
      match expect ":" r1 with
      | None => None
      | Some r2 =>
          match digits 2 0 r2 with
          | None => None
          | Some (m, EmptyString) => Some (h, m, 0, 0)
          | Some (m, r3) =>
              match expect ":" r3 with
              | None => None
              | Some r4 =>
                  match digits 2 0 r4 with
                  | None => None
                  | Some (sec, EmptyString) => Some (h, m, sec, 0)
                  | Some (sec, r5) =>
                      match expect "." r5 with
                      | None => None
                      | Some r6 =>
                          match parse_fraction r6 with
                          | Some us => Some (h, m, sec, us)
                          | None => None
                          end
                      end
                  end
              end
          end
      end
  end.

(** The text before the first ["+"] or ["-"], and the sign ([true] for
    ["-"]) with the text after it. *)
Fixpoint split_sign (s : string) : string * option (bool * string) :=
  match s with
  | EmptyString => (EmptyString, None)
  | String c rest =>
      if Ascii.eqb c "+" then (EmptyString, Some (false, rest))
      else if Ascii.eqb c "-" then (EmptyString, Some (true, rest))
      else let (before, tz) := split_sign rest in (String c before, tz)
  end.

Definition microseconds (h m s us : Z) : Z :=
  ((h * 3600 + m * 60 + s) * 1000000) + us.

(** The offset after the sign: [HH:MM], [HH:MM:SS] or [HH:MM:SS.ffffff],
    strictly less than a day. *)
Definition parse_offset (negative : bool) (s : string) : option Z :=
  let len := String.length s in
  if (Nat.eqb len 5 || Nat.eqb len 8 || Nat.eqb len 15)%bool then
    match parse_hh_mm_ss_ff s with
    | Some (h, m, sec, us) =>
        let off := microseconds h m sec us in
        if off <? microseconds 24 0 0 0
        then Some (if negative then - off else off)
        else None
    | None => None
    end
  else None.

Definition is_leap (y : Z) : bool :=
  (y mod 4 =? 0) && (negb (y mod 100 =? 0) || (y mod 400 =? 0)).

Definition days_in_month (y m : Z) : Z :=
  if m =? 2 then (if is_leap y then 29 else 28)
  else if (m =? 4) || (m =? 6) || (m =? 9) || (m =? 11) then 30
  else 31.

Definition valid_date (y m d : Z) : bool :=
  (1 <=? y) && (y <=? 9999) && (1 <=? m) && (m <=? 12)
  && (1 <=? d) && (d <=? days_in_month y m).

Definition valid_time (h m s : Z) : bool :=
  (h <=? 23) && (m <=? 59) && (s <=? 59).

Definition parse_isoformat_date (s : string) : option (Z * Z * Z * string) :=
  match digits 4 0 s with
  | None => None
  | Some (y, r1) =>
      match expect "-" r1 with
      | None => None
      | Some r2 =>
          match digits 2 0 r2 with
          | None => None
          | Some (m, r3) =>
              match expect "-" r3 with
              | None => None
              | Some r4 =>
                  match digits 2 0 r4 with
                  | None => None
                  | Some (d, r5) => Some (y, m, d, r5)
                  end
              end
          end
      end
  end.

Definition parse_isoformat_time (s : string)
  : option (Z * Z * Z * Z * option Z) :=
  let (timestr, tz) := split_sign s in
  match parse_hh_mm_ss_ff timestr with
  | None => None
  | Some (h, m, sec, us) =>
      match tz with
      | None => Some (h, m, sec, us, None)
      | Some (negative, tzstr) =>
          match parse_offset negative tzstr with
          | Some off => Some (h, m, sec, us, Some off)
          | None => None
          end
      end
  end.

Definition documented_fromisoformat (s : string) : option datetime :=
  match parse_isoformat_date s with
  | None => None
  | Some (y, m, d, rest) =>
      let time :=
        match rest with
        | EmptyString => Some (0, 0, 0, 0, None)
        | _ => parse_isoformat_time (skip_char rest)
        end in
      match time with
      | None => None
      | Some (h, mi, sec, us, tz) =>
          if valid_date y m d && valid_time h mi sec
          then Some {| year := y; month := m; day := d;
                       hour := h; minute := mi; second := sec;
                       microsecond := us; utcoffset := tz |}
          else None
      end
  end.

(** ** [datetime.strftime] *)

Fixpoint zeros (n : nat) : string :=
  match n with
  | O => EmptyString
  | S k => String "0" (zeros k)
  end.

(** A decimal number padded with zeros on the left up to [width]. *)
Definition zero_pad (width : nat) (n : Z) : string :=
  let s := str_of_int n in
  zeros (width - String.length s) ++ s.

Definition month_name (m : Z) : string :=
  match m with
  | 1 => "January" | 2 => "February" | 3 => "March" | 4 => "April"
  | 5 => "May" | 6 => "June" | 7 => "July" | 8 => "August"
  | 9 => "September" | 10 => "October" | 11 => "November"
  | _ => "December"
  end.

Definition hour12 (h : Z) : Z :=
  if h mod 12 =? 0 then 12 else h mod 12.

Definition am_pm (h : Z) : string :=
  if h <? 12 then "AM" else "PM".

(** The directives of the C locale that the application's format uses;
    any other one is copied through.  [%d], [%I] and [%M] are padded to two
    digits; [%Y] is the year as the C library prints it, in decimal with no
    padding, so that a year below 1000 has fewer than four digits. *)
Definition directive (dt : datetime) (d : ascii) : string :=
  if Ascii.eqb d "d" then zero_pad 2 (day dt)
  else if Ascii.eqb d "B" then month_name (month dt)
  else if Ascii.eqb d "Y" then str_of_int (year dt)
  else if Ascii.eqb d "I" then zero_pad 2 (hour12 (hour dt))
  else if Ascii.eqb d "M" then zero_pad 2 (minute dt)
  else if Ascii.eqb d "p" then am_pm (hour dt)
  else if Ascii.eqb d "%" then "%"
  else String "%" (String d EmptyString).

Fixpoint strftime (dt : datetime) (fmt : string) : string :=
  match fmt with
  | EmptyString => EmptyString
  | String c rest =>
      if Ascii.eqb c "%" then
        match rest with
        | String d rest' => directive dt d ++ strftime dt rest'
        | EmptyString => "%"
        end
      else String c (strftime dt rest)
  end.

(** ** The feed *)

(** Lines 181-185. *)
Definition suffix (day : Z) : string :=
  if (10 <=? day mod 100) && (day mod 100 <=? 20) then "th"
  else match day mod 10 with
       | 1 => "st"
       | 2 => "nd"
       | 3 => "rd"
       | _ => "th"
       end.

Section Interpreter.

(** [datetime.fromisoformat] of the interpreter the application runs on. *)
Variable fromisoformat : string -> option datetime.

(** Lines 171-195.  A value that is not a [str] has no [replace], a text
    that does not parse raises [ValueError]: both come back unchanged. *)
Definition format_timestamp (timestamp_str : json) : json :=
  match timestamp_str with
  | JStr s =>
      match fromisoformat (replace "Z" "+00:00" s) with
      | Some dt =>
          let day := day dt in
          let suffix := suffix day in
          let formatted :=
            strftime dt ("%d" ++ suffix ++ " %B %Y - %I:%M %p UTC") in
          let formatted :=
            replace (str_of_int day ++ suffix) (str_of_int day ++ suffix)
                    formatted in
          JStr formatted
      | None => timestamp_str
      end
  | _ => timestamp_str
  end.

(** The order of [sort('timestamp', -1)].  The server first compares the
    type brackets of two values (null, numbers, strings, objects, arrays,
    booleans, in this order) and compares two strings byte by byte; for a
    descending sort an array counts as its largest item, an empty array
    below null.  Values of one bracket other than strings are left tied. *)
Definition item_key (v : json) : nat * string :=
  match v with
  | JNull => (1%nat, EmptyString)
  | JInt _ | JFloat _ => (2%nat, EmptyString)
  | JStr s => (3%nat, s)
  | JObj _ => (4%nat, EmptyString)
  | JArr _ => (5%nat, EmptyString)
  | JBool _ => (8%nat, EmptyString)
  end.

Definition key_leb (a b : nat * string) : bool :=
  (fst a <? fst b)%nat || ((fst a =? fst b)%nat && (snd a <=? snd b)%string).

Definition key_max (a b : nat * string) : nat * string :=
  if key_leb a b then b else a.

Definition sort_key (v : json) : nat * string :=
  match v with
  | JArr items => fold_right key_max (0%nat, EmptyString) (map item_key items)
  | _ => item_key v
  end.

Definition ts_leb (a b : json) : bool := key_leb (sort_key a) (sort_key b).

(** Puts [d] in front of the first document that is not strictly later. *)
Fixpoint insert_desc (d : event_doc) (sorted : list event_doc)
  : list event_doc :=
  match sorted with
  | [] => [d]
  | x :: rest =>
      if ts_leb (timestamp x) (timestamp d) then d :: sorted
      else x :: insert_desc d rest
  end.

Definition sort_desc (l : list event_doc) : list event_doc :=
  fold_right insert_desc [] l.

(** [list(collection.find({}, {'_id': 0}).sort('timestamp', -1))]. *)
Definition find_sorted : store (list event_doc) :=
  (server_call ;;; fun c => (Ok (sort_desc (docs c)), c))%store.

(** A document of the feed: the stored fields and [formatted_timestamp]. *)
Record display_event : Type := {
  event : event_doc;
  formatted_timestamp : json
}.

(** [jsonify(events), 200] or [jsonify({'error': str(e)}), 500]. *)
Inductive events_response : Type :=
| Events (events : list display_event)
| EventsError (error : string).

Definition with_formatted (d : event_doc) : display_event :=
  {| event := d; formatted_timestamp := format_timestamp (timestamp d) |}.

(** Lines 153-169. *)
Definition get_events (c : collection) : events_response * collection :=
  match find_sorted c with
  | (Ok events, c') => (Events (map with_formatted events), c')
  | (Raise (StoreError msg), c') => (EventsError msg, c')
  | (Raise _, c') => (EventsError EmptyString, c')
  end.

End Interpreter.

(** ** Handlers running at the same time

    The server answers one call at a time, so the runs of several handlers
    interleave at their calls: a handler that has its document ready looks
    the key up, and one that found nothing inserts. *)
Inductive thread : Type :=
| Ready (d : event_doc)
| Checked (d : event_doc)
| Finished (o : outcome).

(** The next call of one handler. *)
Definition step (t : thread) (c : collection) : thread * collection :=
  match t with
  | Ready d =>
      match find_one (request_id d) c with
      | (Ok (Some _), c') => (Finished (Skipped (request_id d)), c')
      | (Ok None, c') => (Checked d, c')
      | (Raise e, c') => (Finished (Failed e), c')
      end
  | Checked d =>
      match insert_one d c with
      | (Ok _, c') => (Finished (Stored d), c')
      | (Raise e, c') => (Finished (Failed e), c')
      end
  | Finished o => (Finished o, c)
  end.

Fixpoint set_nth {A} (n : nat) (x : A) (l : list A) : list A :=
  match l, n with
  | [], _ => []
  | _ :: rest, O => x :: rest
  | y :: rest, S k => y :: set_nth k x rest
  end.

(** Runs the handlers in the order [schedule] names them. *)
Fixpoint run (schedule : list nat) (threads : list thread) (c : collection)
  : list thread * collection :=
  match schedule with
  | [] => (threads, c)
  | i :: later =>
      match nth_error threads i with
      | Some t =>
          let (t', c') := step t c in
          run later (set_nth i t' threads) c'
      | None => run later threads c
      end
  end.

(** The keys held by the collection. *)
Definition keys (c : collection) : list json := map request_id (docs c).

Definition count_key (k : json) (c : collection) : nat :=
  count_occ json_eq_dec (keys c) k.

Definition healthy (c : collection) : Prop := faults c = [].

(** ** Vocabulary of the statements *)

(** A key that is a string, as the data model has it. *)
Definition string_key (k : json) : Prop :=
  match k with
  | JStr _ => True
  | _ => False
  end.

(** The lookup of [k] finds nothing among [l]. *)
Definition no_match (k : json) (l : list event_doc) : Prop :=
  forall x, In x l -> matches k (request_id x) = false.

(** What one run of [store_event] can do to the documents. *)
Inductive store_effect (d : event_doc) (c : collection)
  : result outcome -> collection -> Prop :=
| effect_raised msg c' :
    docs c' = docs c ->
    store_effect d c (Raise (StoreError msg)) c'
| effect_skipped c' :
    docs c' = docs c ->
    ~ no_match (request_id d) (docs c) ->
    store_effect d c (Ok (Skipped (request_id d))) c'
| effect_stored c' :
    docs c' = (docs c ++ [d])%list ->
    no_match (request_id d) (docs c) ->
    store_effect d c (Ok (Stored d)) c'.

(** The documents after a handler ran: the same, or one more that the
    lookup of its key did not find. *)
Definition grows_by (c c' : collection) (new : list event_doc) : Prop :=
  docs c' = (docs c ++ new)%list /\
  (new = [] \/ exists d, new = [d] /\ no_match (request_id d) (docs c)).

(** The next call to the server is answered. *)
Definition answered (c : collection) : Prop :=
  match faults c with
  | Some _ :: _ => False
  | _ => True
  end.

Definition has_char (c : ascii) (s : string) : Prop :=
  In c (list_ascii_of_string s).

(** The segments of a [split], put back together. *)
Fixpoint join (sep : ascii) (segs : list string) : string :=
  match segs with
  | [] => EmptyString
  | [seg] => seg
  | seg :: rest => seg ++ String sep (join sep rest)
  end.

(** [seg] is what comes after the last [sep] of [s], or all of [s] when
    [s] has no [sep]. *)
Definition last_segment (sep : ascii) (s seg : string) : Prop :=
  ~ has_char sep seg /\
  (s = seg \/ exists before, s = before ++ String sep seg).

(** A pull-request payload and the fields the handler reads from it. *)
Definition pull_request_of (payload : json) (act : string) (pr : json)
  : Prop :=
  getitem payload "action" = Ok (JStr act) /\
  getitem payload "pull_request" = Ok pr.

Definition pr_fields (pr id login head_ref base_ref : json) : Prop :=
  getitem pr "id" = Ok id /\
  (exists user, getitem pr "user" = Ok user /\
                getitem user "login" = Ok login) /\
  (exists head, getitem pr "head" = Ok head /\
                getitem head "ref" = Ok head_ref) /\
  (exists base, getitem pr "base" = Ok base /\
                getitem base "ref" = Ok base_ref).

Definition push_request (payload : json) : request :=
  {| github_event := Some "push"; json_body := Decoded payload |}.

Definition pull_request_request (payload : json) : request :=
  {| github_event := Some "pull_request"; json_body := Decoded payload |}.

(** The classes of the specification (section 4.1). *)
Inductive notification_kind : Type :=
| Push
| PullRequestOpened
| Merge
| Unhandled.

(** The classifier as the specification words it: a merge is action
    "closed" with a boolean [merged] that is true. *)
Definition merged_is_true (payload : json) : bool :=
  match (pr <- getitem payload "pull_request" ;; getitem pr "merged")%result
  with
  | Ok (JBool true) => true
  | _ => false
  end.

Definition classify_spec (kind : option string) (payload : json)
  : notification_kind :=
  if header_is kind "push" then Push
  else if header_is kind "pull_request" then
    match getitem payload "action" with
    | Ok act =>
        if eq_str act "opened" then PullRequestOpened
        else if eq_str act "closed" && merged_is_true payload then Merge
        else Unhandled
    | Raise _ => Unhandled
    end
  else Unhandled.

(** The test of line 116 on the payload: [pull_request.get('merged', False)]
    counts as true whenever Python counts the value as true, a boolean or
    not. *)
Definition merged_true (payload : json) : bool :=
  match (pr <- getitem payload "pull_request" ;; getitem pr "merged")%result
  with
  | Ok flag => truthy flag
  | Raise _ => false
  end.

(** The class the endpoint treats a notification as: the decision rule of
    the specification with the test of line 116 for "merged is true". *)
Definition classify (kind : option string) (payload : json)
  : notification_kind :=
  if header_is kind "push" then Push
  else if header_is kind "pull_request" then
    match getitem payload "action" with
    | Ok act =>
        if eq_str act "opened" then PullRequestOpened
        else if eq_str act "closed" && merged_true payload then Merge
        else Unhandled
    | Raise _ => Unhandled
    end
  else Unhandled.

(** The document of a pull request: its key is a prefix and [str(id)]. *)
Definition pull_request_doc (kind : event_kind) (key : string)
  (login head_ref base_ref time : json) : event_doc :=
  {| request_id := JStr key;
     author := login;
     action := kind;
     from_branch := head_ref;
     to_branch := base_ref;
     timestamp := time |}.

(** The class of the notification a stored document came from. *)
Definition kind_of_action (a : event_kind) : notification_kind :=
  match a with
  | PUSH => Push
  | PULL_REQUEST => PullRequestOpened
  | MERGE => Merge
  end.

(** [merged_at] when the pull request has the key, [updated_at] otherwise. *)
Definition merge_time (pr updated : json) : json :=
  match getitem pr "merged_at" with
  | Ok merged_at => merged_at
  | Raise _ => updated
  end.

(** The feed order: [a] may stand before [b]. *)
Definition not_earlier (a b : event_doc) : Prop :=
  ts_leb (timestamp b) (timestamp a) = true.

(** The rendering as the specification words it (section 4.4): the suffix
    of 11, 12 and 13 is "th", any other day goes by its last digit. *)
Definition ordinal_suffix (day : Z) : string :=
  if (day =? 11) || (day =? 12) || (day =? 13) then "th"
  else match day mod 10 with
       | 1 => "st"
       | 2 => "nd"
       | 3 => "rd"
       | _ => "th"
       end.

Definition digit_char (d : Z) : ascii := ascii_of_N (Z.to_N (48 + d)).

Definition two_digits (n : Z) : string :=
  String (digit_char (n / 10)) (String (digit_char (n mod 10)) EmptyString).

Definition four_digits (n : Z) : string :=
  two_digits (n / 100) ++ two_digits (n mod 100).

(** "DDth Month YYYY - HH:MM AM/PM UTC". *)
Definition display (dt : datetime) : string :=
  two_digits (day dt) ++ ordinal_suffix (day dt) ++ " "
  ++ month_name (month dt) ++ " " ++ four_digits (year dt) ++ " - "
  ++ two_digits (hour12 (hour dt)) ++ ":" ++ two_digits (minute dt) ++ " "
  ++ am_pm (hour dt) ++ " UTC".

(** The same with the year in decimal, however many digits that takes. *)
Definition rendering (dt : datetime) : string :=
  two_digits (day dt) ++ ordinal_suffix (day dt) ++ " "
  ++ month_name (month dt) ++ " " ++ str_of_int (year dt) ++ " - "
  ++ two_digits (hour12 (hour dt)) ++ ":" ++ two_digits (minute dt) ++ " "
  ++ am_pm (hour dt) ++ " UTC".

(** What the properties take of the interpreter's [fromisoformat], and what
    every version of it does: the result is a date of the calendar and a
    time of the day, as the constructor of [datetime] checks; a text that is
    read begins with the four digits of its year; and a text of the
    documented grammar is read as that grammar reads it. *)
Record reads_iso (fromisoformat : string -> option datetime) : Prop := {
  reads_calendar :
    forall s dt, fromisoformat s = Some dt ->
      1 <= year dt <= 9999 /\ 1 <= month dt <= 12 /\ 1 <= day dt <= 31 /\
      0 <= hour dt <= 23 /\ 0 <= minute dt <= 59;
  reads_year_first :
    forall s dt, fromisoformat s = Some dt -> digits 4 0 s <> None;
  reads_documented :
    forall s dt, documented_fromisoformat s = Some dt ->
                 fromisoformat s = Some dt
}.

(** The timestamp of the data model, ISO-8601 with the UTC designator, as
    GitHub writes [created_at], [updated_at] and [merged_at]. *)
Definition utc_text (dt : datetime) : string :=
  four_digits (year dt) ++ "-" ++ two_digits (month dt) ++ "-"
  ++ two_digits (day dt) ++ "T" ++ two_digits (hour dt) ++ ":"
  ++ two_digits (minute dt) ++ ":" ++ two_digits (second dt) ++ "Z".

Definition calendar (dt : datetime) : Prop :=
  valid_date (year dt) (month dt) (day dt) = true /\
  0 <= hour dt <= 23 /\ 0 <= minute dt <= 59 /\ 0 <= second dt <= 59.

Definition then_by (c later : comparison) : comparison :=
  match c with
  | Eq => later
  | _ => c
  end.

(** Which of two moments of one time zone comes first. *)
Definition chronological (a b : datetime) : comparison :=
  then_by (year a ?= year b)
    (then_by (month a ?= month b)
       (then_by (day a ?= day b)
          (then_by (hour a ?= hour b)
             (then_by (minute a ?= minute b) (second a ?= second b))))).

(** [date.toordinal()]: the number of the day, 0001-01-01 being day 1. *)
Definition toordinal (y m d : Z) : Z :=
  let p := y - 1 in
  365 * p + p / 4 - p / 100 + p / 400
  + fold_right Z.add 0
      (map (fun i => days_in_month y (Z.of_nat i)) (seq 1 (Z.to_nat (m - 1))))
  + d.

(** The moment a datetime denotes, in microseconds of universal time: this
    is what "most recent" compares.  A datetime without offset counts as
    universal time. *)
Definition instant (dt : datetime) : Z :=
  microseconds (toordinal (year dt) (month dt) (day dt) * 24 + hour dt)
               (minute dt) (second dt) (microsecond dt)
  - match utcoffset dt with
    | Some offset => offset
    | None => 0
    end.

(** A notification whose document, if it yields one, has a string key:
    every pull-request notification, and a push whose [head_commit.id] is a
    string. *)
Definition string_keyed (py_repr : json -> string) (req : request) : Prop :=
  forall d, normalize py_repr req = Some d -> string_key (request_id d).

(** The timestamps of the feed, in the order it lists them. *)
Definition listed (r : events_response) : list json :=
  match r with
  | Events evs => map (fun e => timestamp (event e)) evs
  | EventsError _ => []
  end.

(** The moment a timestamp of the data model denotes. *)
Definition moment (s : string) : option Z :=
  option_map instant (documented_fromisoformat (replace "Z" "+00:00" s)).

(** What every document written by the handlers looks like: a push has no
    source branch and a target branch without ["/"]; the key of a pull
    request or a merge is a string with the prefix of its kind. *)
Definition stored_shape (d : event_doc) : Prop :=
  match action d with
  | PUSH =>
      from_branch d = JNull /\
      exists branch, to_branch d = JStr branch /\ ~ has_char "/" branch
  | PULL_REQUEST => exists id, request_id d = JStr ("pr_" ++ id)
  | MERGE => exists id, request_id d = JStr ("merge_" ++ id)
  end.

(** ** The script [test.py] *)

Definition six_digits (n : Z) : string :=
  two_digits (n / 10000) ++ four_digits (n mod 10000).

(** [dt.isoformat()] for a datetime without time zone, as [utcnow()]
    returns it: the microseconds are written only when there are some. *)
Definition isoformat (dt : datetime) : string :=
  four_digits (year dt) ++ "-" ++ two_digits (month dt) ++ "-"
  ++ two_digits (day dt) ++ "T" ++ two_digits (hour dt) ++ ":"
  ++ two_digits (minute dt) ++ ":" ++ two_digits (second dt)
  ++ (if microsecond dt =? 0 then EmptyString
      else "." ++ six_digits (microsecond dt)).

(** Lines 14-21 of [test.py]; [now] is what [datetime.utcnow()] returned. *)
Definition test_event (now : datetime) : event_doc :=
  {| request_id := JStr "test_push_123";
     author := JStr "TestUser";
     action := PUSH;
     from_branch := JNull;
     to_branch := JStr "main";
     timestamp := JStr (isoformat now ++ "Z") |}.

(** Lines 27-34 of [test.py]. *)
Definition test_pr (now : datetime) : event_doc :=
  {| request_id := JStr "test_pr_456";
     author := JStr "TestUser";
     action := PULL_REQUEST;
     from_branch := JStr "feature";
     to_branch := JStr "main";
     timestamp := JStr (isoformat now ++ "Z") |}.

(** The script: two inserts with no lookup before them and no [try] around
    them, so that an error of the store ends the run. *)
Definition test_script (now now' : datetime) : store unit :=
  (insert_one (test_event now) ;;; insert_one (test_pr now'))%store.

(** A moment the clock can return. *)
Definition clock_reading (dt : datetime) : Prop :=
  calendar dt /\ 0 <= microsecond dt < 1000000.

(** ** Payloads used as examples *)

(** None of the examples stringifies a float, a list or a dict. *)
Definition plain_repr (v : json) : string := EmptyString.

Definition empty_collection : collection := {| docs := []; faults := [] |}.

Definition push_payload (id ref time : string) : json :=
  JObj [("ref", JStr ref);
        ("pusher", JObj [("name", JStr "octocat")]);
        ("head_commit", JObj [("id", JStr id); ("timestamp", JStr time)])].

Definition pull_request_object (n : Z) (extra : list (string * json)) : json :=
  JObj ([("id", JInt n);
         ("user", JObj [("login", JStr "octocat")]);
         ("head", JObj [("ref", JStr "feature")]);
         ("base", JObj [("ref", JStr "main")])] ++ extra)%list.

Definition opened_payload (n : Z) : json :=
  JObj [("action", JStr "opened");
        ("pull_request",
         pull_request_object n
           [("created_at", JStr "2024-01-01T00:00:00Z");
            ("updated_at", JStr "2024-01-01T00:00:00Z");
            ("merged_at", JNull);
            ("merged", JBool false)])].

Definition merged_payload (n : Z) : json :=
  JObj [("action", JStr "closed");
        ("pull_request",
         pull_request_object n
           [("created_at", JStr "2024-01-01T00:00:00Z");
            ("updated_at", JStr "2024-06-01T00:00:05Z");
            ("merged_at", JStr "2024-06-01T00:00:00Z");
            ("merged", JBool true)])].

Definition example_push : json :=
  push_payload "abc123" "refs/heads/main" "2024-06-01T00:00:00Z".

Definition example_push_doc : event_doc :=
  {| request_id := JStr "abc123";
     author := JStr "octocat";
     action := PUSH;
     from_branch := JNull;
     to_branch := JStr "main";
     timestamp := JStr "2024-06-01T00:00:00Z" |}.

(** A server whose next answer is a timeout. *)
Definition timing_out : collection :=
  {| docs := []; faults := [Some "timed out"] |}.

(** The collection after pull request 123 was opened. *)
Definition with_pr_123 : collection :=
  snd (webhook plain_repr (pull_request_request (opened_payload 123))
         empty_collection).

(** Two stored events, the older one inserted first. *)
Definition feed_example : collection :=
  {| docs :=
       [ {| request_id := JStr "abc123";
            author := JStr "octocat";
            action := PUSH;
            from_branch := JNull;
            to_branch := JStr "main";
            timestamp := JStr "2024-01-01T00:00:00Z" |};
         {| request_id := JStr "pr_123";
            author := JStr "octocat";
            action := PULL_REQUEST;
            from_branch := JStr "feature";
            to_branch := JStr "main";
            timestamp := JStr "2024-06-01T00:00:00Z" |} ];
     faults := [] |}.

(** A pull request closed without a merge. *)
Definition closed_payload (n : Z) : json :=
  JObj [("action", JStr "closed");
        ("pull_request",
         pull_request_object n
           [("created_at", JStr "2024-01-01T00:00:00Z");
            ("updated_at", JStr "2024-06-01T00:00:05Z");
            ("merged_at", JNull);
            ("merged", JBool false)])].

(** A merge whose payload lacks [updated_at]. *)
Definition merged_without_updated_at (n : Z) : json :=
  JObj [("action", JStr "closed");
        ("pull_request",
         pull_request_object n
           [("created_at", JStr "2024-01-01T00:00:00Z");
            ("merged_at", JStr "2024-06-01T00:00:00Z");
            ("merged", JBool true)])].

(** A push that deletes a branch: GitHub sends no head commit. *)
Definition branch_deletion : json :=
  JObj [("ref", JStr "refs/heads/old");
        ("pusher", JObj [("name", JStr "octocat")]);
        ("head_commit", JNull)].

Definition noon : datetime :=
  {| year := 2026; month := 1; day := 29;
     hour := 12; minute := 0; second := 7;
     microsecond := 250000; utcoffset := None |}.

(** A push whose commit id is not a hash but a dict that the server reads
    as a query. *)
Definition operator_push : json :=
  JObj [("ref", JStr "refs/heads/main");
        ("pusher", JObj [("name", JStr "octocat")]);
        ("head_commit", JObj [("id", JObj [("$gt", JStr "")]);
                              ("timestamp", JStr "2024-06-01T00:00:00Z")])].

Definition operator_push_doc : event_doc :=
  {| request_id := JObj [("$gt", JStr "")];
     author := JStr "octocat";
     action := PUSH;
     from_branch := JNull;
     to_branch := JStr "main";
     timestamp := JStr "2024-06-01T00:00:00Z" |}.

(** A pull request closed with the given [merged] and [merged_at]. *)
Definition closed_with (n : Z) (merged merged_at : json) : json :=
  JObj [("action", JStr "closed");
        ("pull_request",
         pull_request_object n
           [("created_at", JStr "2024-01-01T00:00:00Z");
            ("updated_at", JStr "2024-06-01T00:00:05Z");
            ("merged_at", merged_at);
            ("merged", merged)])].

(** The document [test.py] wrote at [noon], and a pull request that GitHub
    dated a quarter of a second before. *)
Definition script_and_github : collection :=
  {| docs :=
       [ test_event noon;
         {| request_id := JStr "pr_123";
            author := JStr "octocat";
            action := PULL_REQUEST;
            from_branch := JStr "feature";
            to_branch := JStr "main";
            timestamp := JStr "2026-01-29T12:00:07Z" |} ];
     faults := [] |}.

(** A push committed five and a half hours east of Greenwich, and a pull
    request opened half an hour after it. *)
Definition push_from_the_east : collection :=
  {| docs :=
       [ {| request_id := JStr "abc123";
            author := JStr "octocat";
            action := PUSH;
            from_branch := JNull;
            to_branch := JStr "main";
            timestamp := JStr "2024-06-01T10:00:00+05:30" |};
         {| request_id := JStr "pr_123";
            author := JStr "octocat";
            action := PULL_REQUEST;
            from_branch := JStr "feature";
            to_branch := JStr "main";
            timestamp := JStr "2024-06-01T05:00:00Z" |} ];
     faults := [] |}.

(** * Properties *)

(** ** The collection and the insert-if-absent sequence *)

Lemma json_eqb_eq (a b : json) : json_eqb a b = true <-> a = b.
Proof.
  unfold json_eqb. destruct (json_eq_dec a b); split; congruence.
Qed.

Lemma json_eqb_refl (a : json) : json_eqb a a = true.
Proof. apply json_eqb_eq. reflexivity. Qed.

Lemma matches_string (s : string) (v : json) :
  matches (JStr s) v = json_eqb v (JStr s).
Proof. reflexivity. Qed.

Lemma string_key_inv (k : json) : string_key k -> exists s, k = JStr s.
Proof. destruct k; simpl; try contradiction. intros _. eexists; reflexivity. Qed.

(** For a string key the lookup finds a document exactly when the key is
    held. *)
Lemma no_match_key (k : json) (l : list event_doc) :
  string_key k -> (no_match k l <-> ~ In k (map request_id l)).
Proof.
  intros Hk. destruct (string_key_inv k Hk) as [s ->]. unfold no_match. split.
  - intros H Hin. apply in_map_iff in Hin. destruct Hin as [x [Hx Hin]].
    specialize (H x Hin). rewrite matches_string, Hx, json_eqb_refl in H.
    discriminate.
  - intros H x Hin. rewrite matches_string.
    destruct (json_eqb (request_id x) (JStr s)) eqn:E; [|reflexivity].
    apply json_eqb_eq in E. exfalso. apply H. rewrite <- E.
    apply in_map. exact Hin.
Qed.

Lemma find_one_some (k : json) (l : list event_doc) (x : event_doc) :
  List.find (fun d => matches k (request_id d)) l = Some x ->
  ~ no_match k l.
Proof.
  intros H Hn. apply find_some in H. destruct H as [Hin Hm].
  rewrite (Hn x Hin) in Hm. discriminate.
Qed.

Lemma find_one_none (k : json) (l : list event_doc) :
  List.find (fun d => matches k (request_id d)) l = None ->
  no_match k l.
Proof. intros H x Hin. exact (find_none _ _ H x Hin). Qed.

Lemma find_one_no_match (k : json) (l : list event_doc) :
  no_match k l ->
  List.find (fun d => matches k (request_id d)) l = None.
Proof.
  intros Hn.
  destruct (List.find (fun d => matches k (request_id d)) l) eqn:E;
    [|reflexivity].
  exfalso. exact (find_one_some _ _ _ E Hn).
Qed.

Lemma find_one_key_in (k : json) (l : list event_doc) :
  string_key k -> In k (map request_id l) ->
  exists x, List.find (fun d => matches k (request_id d)) l = Some x.
Proof.
  intros Hk Hin.
  destruct (List.find (fun d => matches k (request_id d)) l) eqn:E.
  - eexists; reflexivity.
  - exfalso. apply find_one_none in E.
    exact (proj1 (no_match_key k l Hk) E Hin).
Qed.

Lemma store_event_effect (d : event_doc) (c : collection) :
  store_effect d c (fst (store_event d c)) (snd (store_event d c)).
Proof.
  unfold store_event, bind, find_one, insert_one, ret, server_call.
  destruct c as [ds fs]; simpl.
  destruct fs as [|[msg|] fs]; simpl.
  - destruct (List.find _ ds) eqn:E; simpl.
    + apply effect_skipped; [reflexivity | exact (find_one_some _ _ _ E)].
    + apply effect_stored; [reflexivity | exact (find_one_none _ _ E)].
  - apply effect_raised; reflexivity.
  - destruct (List.find _ ds) eqn:E; simpl.
    + apply effect_skipped; [reflexivity | exact (find_one_some _ _ _ E)].
    + destruct fs as [|[msg|] fs]; simpl.
      * apply effect_stored; [reflexivity | exact (find_one_none _ _ E)].
      * apply effect_raised; reflexivity.
      * apply effect_stored; [reflexivity | exact (find_one_none _ _ E)].
Qed.

(** With a server that answers and a string key, [store_event] is
    insert-if-absent. *)
Lemma store_event_present (d : event_doc) (c : collection) :
  string_key (request_id d) ->
  healthy c -> In (request_id d) (keys c) ->
  store_event d c = (Ok (Skipped (request_id d)), c).
Proof.
  unfold healthy, keys. destruct c as [ds fs]; simpl. intros Hk -> Hin.
  destruct (find_one_key_in _ _ Hk Hin) as [x Hx].
  unfold store_event, bind, find_one, ret, server_call. simpl.
  rewrite Hx. reflexivity.
Qed.

Lemma store_event_unmatched (d : event_doc) (c : collection) :
  healthy c -> no_match (request_id d) (docs c) ->
  store_event d c = (Ok (Stored d), {| docs := (docs c ++ [d])%list; faults := [] |}).
Proof.
  unfold healthy. destruct c as [ds fs]; simpl. intros -> Hn.
  unfold store_event, bind, find_one, insert_one, ret, server_call. simpl.
  rewrite (find_one_no_match _ _ Hn). reflexivity.
Qed.

Lemma store_event_absent (d : event_doc) (c : collection) :
  string_key (request_id d) ->
  healthy c -> ~ In (request_id d) (keys c) ->
  store_event d c = (Ok (Stored d), {| docs := (docs c ++ [d])%list; faults := [] |}).
Proof.
  intros Hk Hh Hnin. apply store_event_unmatched; [exact Hh|].
  apply (no_match_key _ _ Hk). exact Hnin.
Qed.

Lemma grows_by_nil (c c' : collection) :
  docs c' = docs c -> grows_by c c' [].
Proof.
  intros H. split; [rewrite H, app_nil_r; reflexivity | left; reflexivity].
Qed.

Lemma store_effect_grows d c r c' :
  store_effect d c r c' ->
  exists new, grows_by c c' new /\
    (forall x, In x new -> x = d /\ r = Ok (Stored d)).
Proof.
  intros H. destruct H.
  - exists []. split; [apply grows_by_nil; assumption | intros x []].
  - exists []. split; [apply grows_by_nil; assumption | intros x []].
  - exists [d]. split.
    + split; [assumption | right; exists d; split; [reflexivity|assumption]].
    + intros x [<-|[]]. split; reflexivity.
Qed.

Lemma handle_push_event_grows (payload : json) (c : collection) :
  exists new, grows_by c (snd (handle_push_event payload c)) new /\
    (forall x, In x new ->
       push_event_doc payload = Ok x /\
       fst (handle_push_event payload c) = Stored x).
Proof.
  unfold handle_push_event, try_except, bind, lift.
  destruct (push_event_doc payload) as [d|e] eqn:E; simpl.
  - pose proof (store_event_effect d c) as H.
    destruct (store_effect_grows _ _ _ _ H) as [new [Hg Hnew]].
    destruct (store_event d c) as [[o|e] c'] eqn:Es; simpl in *.
    + exists new. split; [exact Hg|]. intros x Hx.
      destruct (Hnew x Hx) as [-> Ho]. inversion Ho. split; reflexivity.
    + exists new. split; [exact Hg|]. intros x Hx.
      destruct (Hnew x Hx) as [_ Ho]. discriminate.
  - exists []. split; [apply grows_by_nil; reflexivity | intros x []].
Qed.

Section PullRequestFacts.

Variable py_repr : json -> string.

Lemma handle_pull_request_event_grows (payload : json) (c : collection) :
  exists new,
    grows_by c (snd (handle_pull_request_event py_repr payload c)) new /\
    (forall x, In x new ->
       pull_request_event_doc py_repr payload = Ok (inr x) /\
       fst (handle_pull_request_event py_repr payload c) = Stored x).
Proof.
  unfold handle_pull_request_event, try_except, bind, lift.
  destruct (pull_request_event_doc py_repr payload) as [[act|d]|e] eqn:E;
    simpl.
  - exists []. split; [apply grows_by_nil; reflexivity | intros x []].
  - pose proof (store_event_effect d c) as H.
    destruct (store_effect_grows _ _ _ _ H) as [new [Hg Hnew]].
    destruct (store_event d c) as [[o|e] c'] eqn:Es; simpl in *.
    + exists new. split; [exact Hg|]. intros x Hx.
      destruct (Hnew x Hx) as [-> Ho]. inversion Ho. split; reflexivity.
    + exists new. split; [exact Hg|]. intros x Hx.
      destruct (Hnew x Hx) as [_ Ho]. discriminate.
  - exists []. split; [apply grows_by_nil; reflexivity | intros x []].
Qed.

Lemma webhook_grows (req : request) (c : collection) :
  exists new, grows_by c (snd (webhook py_repr req c)) new.
Proof.
  unfold webhook. destruct (json_body req) as [payload|error]; simpl.
  - destruct (header_is (github_event req) "push").
    + destruct (handle_push_event_grows payload c) as [new [H _]].
      exists new; exact H.
    + destruct (header_is (github_event req) "pull_request").
      * destruct (handle_pull_request_event_grows payload c) as [new [H _]].
        exists new; exact H.
      * exists []. apply grows_by_nil. reflexivity.
  - exists []. apply grows_by_nil. reflexivity.
Qed.

Lemma webhook_adds_normalized (req : request) (c : collection) :
  exists new,
    grows_by c (snd (webhook py_repr req c)) new /\
    forall d, In d new -> normalize py_repr req = Some d.
Proof.
  unfold webhook, normalize.
  destruct (json_body req) as [payload|error]; cbn [snd].
  - destruct (header_is (github_event req) "push").
    + destruct (handle_push_event_grows payload c) as [new [Hg Hn]].
      exists new. split; [exact Hg|]. intros d Hd.
      destruct (Hn d Hd) as [-> _]. reflexivity.
    + destruct (header_is (github_event req) "pull_request").
      * destruct (handle_pull_request_event_grows payload c)
          as [new [Hg Hn]].
        exists new. split; [exact Hg|]. intros d Hd.
        destruct (Hn d Hd) as [-> _]. reflexivity.
      * exists []. split; [apply grows_by_nil; reflexivity | intros d []].
  - exists []. split; [apply grows_by_nil; reflexivity | intros d []].
Qed.

Lemma grows_by_NoDup (c c' : collection) (new : list event_doc) :
  grows_by c c' new ->
  (forall d, In d new -> string_key (request_id d)) ->
  NoDup (keys c) -> NoDup (keys c').
Proof.
  unfold keys. intros [Hd [->|[d [-> Hn]]]] Hk Hnd; rewrite Hd.
  - rewrite app_nil_r. exact Hnd.
  - rewrite map_app. simpl.
    apply NoDup_rev in Hnd. rewrite <- (rev_involutive (_ ++ _)%list).
    apply NoDup_rev. rewrite rev_app_distr. simpl.
    constructor; [|exact Hnd].
    rewrite <- in_rev.
    exact (proj1 (no_match_key _ _ (Hk d (or_introl eq_refl))) Hn).
Qed.

Lemma webhook_NoDup (req : request) (c : collection) :
  string_keyed py_repr req ->
  NoDup (keys c) -> NoDup (keys (snd (webhook py_repr req c))).
Proof.
  intros Hk. destruct (webhook_adds_normalized req c) as [new [H Hn]].
  apply (grows_by_NoDup _ _ _ H). intros d Hd. exact (Hk d (Hn d Hd)).
Qed.

Lemma process_NoDup (reqs : list request) (c : collection) :
  Forall (string_keyed py_repr) reqs ->
  NoDup (keys c) -> NoDup (keys (snd (process py_repr reqs c))).
Proof.
  revert c. induction reqs as [|req later IH]; intros c Hk Hnd; simpl.
  - exact Hnd.
  - inversion Hk as [|? ? Hreq Hlater]; subst.
    pose proof (webhook_NoDup req c Hreq Hnd) as H1.
    destruct (webhook py_repr req c) as [r c1]; simpl in H1.
    specialize (IH c1 Hlater H1).
    destruct (process py_repr later c1) as [rs c2]; simpl in *. exact IH.
Qed.

End PullRequestFacts.

(** ** Sequential processing *)

Lemma count_key_unique (k : json) (c : collection) :
  NoDup (keys c) -> In k (keys c) -> count_key k c = 1%nat.
Proof.
  unfold count_key. intros Hnd Hin.
  exact (proj1 (NoDup_count_occ' json_eq_dec (keys c)) Hnd k Hin).
Qed.

Lemma count_key_appended (d : event_doc) (c c' : collection) :
  docs c' = (docs c ++ [d])%list -> ~ In (request_id d) (keys c) ->
  count_key (request_id d) c' = 1%nat.
Proof.
  unfold count_key, keys. intros -> Hnin.
  rewrite map_app, count_occ_app. simpl.
  rewrite (proj1 (count_occ_not_In json_eq_dec _ _) Hnin).
  destruct (json_eq_dec (request_id d) (request_id d)); [reflexivity|congruence].
Qed.

Section Sequential.

Variable py_repr : json -> string.

(** A notification that yields a document reaches the store with it. *)
Lemma webhook_normalized (req : request) (d : event_doc) (c : collection) :
  normalize py_repr req = Some d ->
  snd (webhook py_repr req c) = snd (store_event d c).
Proof.
  unfold normalize, webhook. destruct (json_body req) as [payload|error].
  2: discriminate.
  destruct (header_is (github_event req) "push").
  - destruct (push_event_doc payload) as [d'|e] eqn:E; [|discriminate].
    intros H; inversion H; subst d'.
    unfold handle_push_event, try_except, bind, lift. rewrite E. simpl.
    destruct (store_event d c) as [[o|e] c']; reflexivity.
  - destruct (header_is (github_event req) "pull_request"); [|discriminate].
    destruct (pull_request_event_doc py_repr payload) as [[act|d']|e] eqn:E;
      try discriminate.
    intros H; inversion H; subst d'.
    unfold handle_pull_request_event, try_except, bind, lift. rewrite E.
    simpl. destruct (store_event d c) as [[o|e] c']; reflexivity.
Qed.

Lemma webhook_without_document (req : request) (c : collection) :
  normalize py_repr req = None -> snd (webhook py_repr req c) = c.
Proof.
  unfold normalize, webhook.
  destruct (json_body req) as [payload|error]; [|reflexivity].
  cbn [snd]. destruct (header_is (github_event req) "push").
  - destruct (push_event_doc payload) as [d|e] eqn:E; [discriminate|].
    intros _. unfold handle_push_event, try_except, bind, lift.
    rewrite E. reflexivity.
  - destruct (header_is (github_event req) "pull_request"); [|reflexivity].
    unfold handle_pull_request_event, try_except, bind, lift.
    destruct (pull_request_event_doc py_repr payload) as [[a|d]|e];
      try discriminate; reflexivity.
Qed.

Lemma webhook_known_key (req : request) (d : event_doc) (c : collection) :
  normalize py_repr req = Some d -> string_key (request_id d) ->
  In (request_id d) (keys c) ->
  docs (snd (webhook py_repr req c)) = docs c.
Proof.
  intros Hn Hk Hin. rewrite (webhook_normalized req d c Hn).
  pose proof (store_event_effect d c) as H.
  inversion H as [| |c' Hd Hno]; try assumption.
  exfalso. exact (proj1 (no_match_key _ _ Hk) Hno Hin).
Qed.

Lemma process_two (a b : request) (c : collection) :
  snd (process py_repr [a; b] c) =
  snd (webhook py_repr b (snd (webhook py_repr a c))).
Proof.
  cbn [process]. destruct (webhook py_repr a c) as [r1 c1]. cbn [snd].
  destruct (webhook py_repr b c1) as [r2 c2]. reflexivity.
Qed.

Lemma webhook_twice (req : request) (d : event_doc) (c : collection) :
  normalize py_repr req = Some d -> string_key (request_id d) ->
  healthy c -> NoDup (keys c) ->
  count_key (request_id d) (snd (process py_repr [req; req] c)) = 1%nat /\
  (~ In (request_id d) (keys c) ->
   docs (snd (process py_repr [req; req] c)) = (docs c ++ [d])%list).
Proof.
  intros Hn Hk Hh Hnd. simpl.
  destruct (webhook py_repr req c) as [r1 c1] eqn:E1.
  destruct (webhook py_repr req c1) as [r2 c2] eqn:E2. simpl.
  pose proof (webhook_normalized req d c Hn) as H1. rewrite E1 in H1.
  pose proof (webhook_normalized req d c1 Hn) as H2. rewrite E2 in H2.
  simpl in H1, H2.
  destruct (in_dec json_eq_dec (request_id d) (keys c)) as [Hin|Hnin].
  - rewrite (store_event_present d c Hk Hh Hin) in H1. simpl in H1. subst c1.
    rewrite (store_event_present d c Hk Hh Hin) in H2. simpl in H2. subst c2.
    split; [exact (count_key_unique _ _ Hnd Hin) | contradiction].
  - rewrite (store_event_absent d c Hk Hh Hnin) in H1. simpl in H1. subst c1.
    assert (Hin : In (request_id d)
                     (keys {| docs := (docs c ++ [d])%list; faults := [] |})).
    { unfold keys. simpl. rewrite map_app. apply in_or_app. right.
      left. reflexivity. }
    assert (Hh' : healthy {| docs := (docs c ++ [d])%list; faults := [] |})
      by reflexivity.
    rewrite (store_event_present d _ Hk Hh' Hin) in H2. simpl in H2.
    subst c2. split; [|reflexivity].
    apply (count_key_appended d c); [reflexivity | exact Hnin].
Qed.


End Sequential.


(** C1, where the code departs from the specification.  The handler puts
    [head_commit.id] into the filter of the lookup as it came.  A push whose
    id is the dict [{"$gt": ""}] is looked up as the query "a key greater
    than the empty string": on the empty collection it finds nothing and the
    document is inserted; delivered again, it finds nothing either, the key
    held being a dict and no string, and the document is inserted a second
    time.  The collection then holds two documents with the same key.  On a
    collection that holds string keys the same lookup finds one of them and
    the push is skipped as a duplicate of a document with another key. *)
Theorem operator_id_stored_twice :
  push_event_doc operator_push = Ok operator_push_doc /\
  process plain_repr
    [push_request operator_push; push_request operator_push] empty_collection
  = ([ {| status := "success"; message := None; status_code := 200 |};
       {| status := "success"; message := None; status_code := 200 |} ],
     {| docs := [operator_push_doc; operator_push_doc]; faults := [] |}) /\
  count_key (request_id operator_push_doc)
    (snd (process plain_repr
            [push_request operator_push; push_request operator_push]
            empty_collection)) = 2%nat /\
  ~ NoDup (keys (snd (process plain_repr
                        [push_request operator_push;
                         push_request operator_push]
                        empty_collection))) /\
  handle_push_event operator_push feed_example
  = (Skipped (request_id operator_push_doc), feed_example) /\
  ~ In (request_id operator_push_doc) (keys feed_example).
Proof.
  split; [reflexivity|]. split; [reflexivity|]. split; [reflexivity|].
  split; [|split; [reflexivity|]].
  - intros H. inversion H as [|k l Hnin _]; subst. apply Hnin.
    left. reflexivity.
  - intros [H|[H|[]]]; discriminate.
Qed.

(** ** The push handler *)

Lemma append_assoc (a b c : string) : (a ++ b) ++ c = a ++ (b ++ c).
Proof. induction a as [|x a IH]; simpl; [reflexivity | rewrite IH; reflexivity]. Qed.

Lemma has_char_append (sep : ascii) (a b : string) :
  has_char sep (a ++ String sep b).
Proof.
  unfold has_char. induction a as [|x a IH]; simpl.
  - left; reflexivity.
  - right; exact IH.
Qed.

Lemma split_nonempty (sep : ascii) (s : string) : split sep s <> [].
Proof.
  destruct s as [|c rest]; simpl; [discriminate|].
  destruct (Ascii.eqb c sep); [discriminate|].
  destruct (split sep rest); discriminate.
Qed.

Lemma split_without_sep (sep : ascii) (s : string) :
  Forall (fun seg => ~ has_char sep seg) (split sep s).
Proof.
  unfold has_char. induction s as [|c rest IH]; simpl.
  - constructor; [intros [] | constructor].
  - destruct (Ascii.eqb c sep) eqn:E.
    + constructor; [intros [] | exact IH].
    + destruct (split sep rest) as [|seg segs].
      * constructor; [|constructor]. simpl. intros [H|[]].
        subst c. rewrite Ascii.eqb_refl in E. discriminate.
      * inversion IH as [|? ? Hseg Hsegs]; subst.
        constructor; [|exact Hsegs]. simpl. intros [H|H].
        -- subst c. rewrite Ascii.eqb_refl in E. discriminate.
        -- exact (Hseg H).
Qed.

(** Splitting loses nothing: the segments joined by [sep] give [s] back. *)
Lemma join_split (sep : ascii) (s : string) : join sep (split sep s) = s.
Proof.
  induction s as [|c rest IH]; simpl; [reflexivity|].
  pose proof (split_nonempty sep rest) as Hne.
  destruct (Ascii.eqb c sep) eqn:E.
  - apply Ascii.eqb_eq in E. subst c.
    destruct (split sep rest) as [|seg segs]; [congruence|].
    simpl in *. rewrite IH. reflexivity.
  - destruct (split sep rest) as [|seg segs]; [congruence|].
    simpl in *. destruct segs as [|seg' segs].
    + rewrite IH. reflexivity.
    + simpl. rewrite <- IH. reflexivity.
Qed.

Lemma join_last (sep : ascii) (segs : list string) :
  segs <> [] ->
  join sep segs = last_item segs \/
  exists before, join sep segs = before ++ String sep (last_item segs).
Proof.
  unfold last_item. induction segs as [|seg rest IH]; [congruence|].
  intros _. destruct rest as [|seg' rest].
  - left; reflexivity.
  - right. destruct IH as [IH|[before IH]]; [discriminate| |].
    + exists seg. change (join sep (seg :: seg' :: rest))
        with (seg ++ String sep (join sep (seg' :: rest))).
      rewrite IH. reflexivity.
    + exists (seg ++ String sep before).
      change (join sep (seg :: seg' :: rest))
        with (seg ++ String sep (join sep (seg' :: rest))).
      rewrite IH, append_assoc. reflexivity.
Qed.

Lemma last_item_in (segs : list string) :
  segs <> [] -> In (last_item segs) segs.
Proof.
  unfold last_item. induction segs as [|seg rest IH]; [congruence|].
  intros _. destruct rest as [|seg' rest].
  - left; reflexivity.
  - right. apply IH. discriminate.
Qed.

Lemma split_last_segment (sep : ascii) (s : string) :
  last_segment sep s (last_item (split sep s)).
Proof.
  pose proof (split_nonempty sep s) as Hne. split.
  - pose proof (split_without_sep sep s) as H.
    rewrite Forall_forall in H. apply H. apply last_item_in. exact Hne.
  - pose proof (join_last sep (split sep s) Hne) as H.
    rewrite join_split in H. exact H.
Qed.

Lemma last_segment_whole (sep : ascii) (s seg : string) :
  last_segment sep s seg -> ~ has_char sep s -> seg = s.
Proof.
  intros [_ [H|[before H]]] Hno; [congruence|].
  exfalso. apply Hno. rewrite H. apply has_char_append.
Qed.

(** C2.  A push payload whose [head_commit] holds [id] and [timestamp],
    whose [pusher] holds [name] and whose [ref] is a string yields a document
    with [head_commit.id] as key, [pusher.name] as author, action PUSH, no
    source branch, [head_commit.timestamp] as it came, and as target branch
    what follows the last ["/"] of the ref: all of it when it has none. *)
Theorem push_event_doc_fields :
  forall payload head_commit pusher id name time ref,
    getitem payload "head_commit" = Ok head_commit ->
    getitem head_commit "id" = Ok id ->
    getitem head_commit "timestamp" = Ok time ->
    getitem payload "pusher" = Ok pusher ->
    getitem pusher "name" = Ok name ->
    getitem payload "ref" = Ok (JStr ref) ->
    exists branch,
      push_event_doc payload =
        Ok {| request_id := id;
              author := name;
              action := PUSH;
              from_branch := JNull;
              to_branch := JStr branch;
              timestamp := time |} /\
      last_segment "/" ref branch /\
      (~ has_char "/" ref -> branch = ref).
Proof.
  intros payload head_commit pusher id name time ref Hh Hid Ht Hp Hn Hr.
  exists (last_item (split "/" ref)). split; [|split].
  - unfold push_event_doc, rbind. rewrite Hh, Hid, Hp, Hn, Hr. simpl.
    rewrite Ht. reflexivity.
  - apply split_last_segment.
  - apply last_segment_whole. apply split_last_segment.
Qed.

Lemma push_event_doc_fields_witness :
  exists branch,
    push_event_doc (push_payload "abc123" "refs/heads/feature/login"
                                 "2024-06-01T00:00:00Z") =
      Ok {| request_id := JStr "abc123";
            author := JStr "octocat";
            action := PUSH;
            from_branch := JNull;
            to_branch := JStr branch;
            timestamp := JStr "2024-06-01T00:00:00Z" |} /\
    last_segment "/" "refs/heads/feature/login" branch /\
    (~ has_char "/" "refs/heads/feature/login" ->
     branch = "refs/heads/feature/login").
Proof.
  apply (push_event_doc_fields
           (push_payload "abc123" "refs/heads/feature/login"
                         "2024-06-01T00:00:00Z")
           (JObj [("id", JStr "abc123");
                  ("timestamp", JStr "2024-06-01T00:00:00Z")])
           (JObj [("name", JStr "octocat")]));
    reflexivity.
Defined.

Example to_branch_of_nested_ref :
  last_item (split "/" "refs/heads/feature/login") = "login" /\
  last_item (split "/" "main") = "main".
Proof. split; reflexivity. Qed.

Lemma push_event_doc_inv (payload : json) (d : event_doc) :
  push_event_doc payload = Ok d ->
  action d = PUSH /\ from_branch d = JNull /\
  exists head_commit,
    getitem payload "head_commit" = Ok head_commit /\
    getitem head_commit "id" = Ok (request_id d) /\
    getitem head_commit "timestamp" = Ok (timestamp d).
Proof.
  unfold push_event_doc, rbind.
  destruct (getitem payload "head_commit") as [h|] eqn:Eh; [|discriminate].
  destruct (getitem h "id") as [id|] eqn:Eid; [|discriminate].
  destruct (getitem payload "pusher") as [p|]; [|discriminate].
  destruct (getitem p "name") as [n|]; [|discriminate].
  destruct (getitem payload "ref") as [r|]; [|discriminate].
  destruct (str_split r "/") as [parts|]; [|discriminate].
  destruct (getitem h "timestamp") as [t|] eqn:Et; [|discriminate].
  intros H; inversion H; subst d; simpl.
  split; [reflexivity|]. split; [reflexivity|].
  exists h. repeat split; assumption.
Qed.

Lemma store_event_present_answered (d : event_doc) (c : collection) :
  string_key (request_id d) ->
  answered c -> In (request_id d) (keys c) ->
  fst (store_event d c) = Ok (Skipped (request_id d)) /\
  docs (snd (store_event d c)) = docs c.
Proof.
  unfold answered, keys. destruct c as [ds fs]; simpl. intros Hk Ha Hin.
  destruct (find_one_key_in _ _ Hk Hin) as [x Hx].
  unfold store_event, bind, find_one, ret, server_call. simpl.
  destruct fs as [|[msg|] fs]; simpl; [| contradiction |];
    rewrite Hx; split; reflexivity.
Qed.

(** C10.  The lookup goes by the key alone and a push key is the bare
    [head_commit.id]: a push whose [head_commit.id] is the string that is
    the key of a document already held, of whatever kind, adds nothing; when
    its fields can be read and the server answers the lookup, it is skipped
    as a duplicate. *)
Theorem push_duplicate_of_any_kind :
  forall payload head_commit k c,
    getitem payload "head_commit" = Ok head_commit ->
    getitem head_commit "id" = Ok (JStr k) ->
    In (JStr k) (keys c) ->
    docs (snd (handle_push_event payload c)) = docs c /\
    (forall d, push_event_doc payload = Ok d -> request_id d = JStr k) /\
    (forall d, push_event_doc payload = Ok d -> answered c ->
               fst (handle_push_event payload c) = Skipped (JStr k)).
Proof.
  intros payload head_commit k c Hh Hid Hin.
  assert (Hkey : forall d, push_event_doc payload = Ok d ->
                           request_id d = JStr k).
  { intros d Hd. destruct (push_event_doc_inv _ _ Hd) as [_ [_ [h [H1 [H2 _]]]]].
    rewrite Hh in H1. inversion H1; subst h. rewrite Hid in H2.
    inversion H2. reflexivity. }
  split; [|split].
  - destruct (handle_push_event_grows payload c) as [new [[Hd Hnew] Hin']].
    destruct Hnew as [->|[d [-> Hno]]].
    + rewrite Hd, app_nil_r. reflexivity.
    + exfalso.
      destruct (Hin' d (or_introl eq_refl)) as [Hdoc _].
      rewrite (Hkey d Hdoc) in Hno.
      exact (proj1 (no_match_key (JStr k) (docs c) I) Hno Hin).
  - exact Hkey.
  - intros d Hd Ha. unfold handle_push_event, try_except, bind, lift.
    rewrite Hd. pose proof (Hkey d Hd) as Hk.
    assert (Hs : string_key (request_id d)) by (rewrite Hk; exact I).
    assert (Hin' : In (request_id d) (keys c)) by (rewrite Hk; exact Hin).
    destruct (store_event_present_answered d c Hs Ha Hin') as [H1 _].
    destruct (store_event d c) as [r c']. simpl in *. subst r.
    rewrite Hk. reflexivity.
Qed.

(** ** The pull-request handler *)

Lemma eq_str_true (v : json) (lit : string) :
  eq_str v lit = true <-> v = JStr lit.
Proof.
  destruct v; simpl; split; try discriminate.
  - intros H. apply String.eqb_eq in H. subst; reflexivity.
  - intros H. inversion H. apply String.eqb_refl.
Qed.

Lemma dict_get_of_dict (pr : json) (k k' : string) (x default : json) :
  getitem pr k' = Ok x ->
  dict_get pr k default =
    Ok (match getitem pr k with Ok v => v | Raise _ => default end).
Proof.
  destruct pr; simpl; try discriminate. intros _.
  destruct (assoc k fields); reflexivity.
Qed.

Section PullRequestHandler.

Variable py_repr : json -> string.

(** Every path of lines 106-127 that does not raise. *)
Lemma pull_request_event_doc_inv (payload : json) (r : json + event_doc) :
  pull_request_event_doc py_repr payload = Ok r ->
  exists act pr id login head_ref base_ref time,
    getitem payload "action" = Ok act /\
    getitem payload "pull_request" = Ok pr /\
    pr_fields pr id login head_ref base_ref /\
    (if eq_str act "opened" then getitem pr "created_at" = Ok time
     else exists updated, getitem pr "updated_at" = Ok updated /\
                          time = merge_time pr updated) /\
    r = if eq_str act "closed" && merged_true payload
        then inr (pull_request_doc MERGE ("merge_" ++ py_str py_repr id)
                    login head_ref base_ref time)
        else if eq_str act "opened"
        then inr (pull_request_doc PULL_REQUEST ("pr_" ++ py_str py_repr id)
                    login head_ref base_ref time)
        else inl act.
Proof.
  unfold pull_request_event_doc, rbind, merged_true, pr_fields.
  destruct (getitem payload "action") as [act|] eqn:Ea; [|discriminate].
  destruct (getitem payload "pull_request") as [pr|] eqn:Ep; [|discriminate].
  destruct (getitem pr "id") as [id|] eqn:Eid; [|discriminate].
  destruct (getitem pr "user") as [user|] eqn:Eu; [|discriminate].
  destruct (getitem user "login") as [login|] eqn:El; [|discriminate].
  destruct (getitem pr "head") as [head|] eqn:Eh; [|discriminate].
  destruct (getitem head "ref") as [head_ref|] eqn:Ehr; [|discriminate].
  destruct (getitem pr "base") as [base|] eqn:Eb; [|discriminate].
  destruct (getitem base "ref") as [base_ref|] eqn:Ebr; [|discriminate].
  intros H.
  assert (Hm : (if eq_str act "closed"
                then dict_get pr "merged" (JBool false)
                else Ok (JBool false)) =
               Ok (if eq_str act "closed"
                   then match getitem pr "merged" with
                        | Ok v => v
                        | Raise _ => JBool false
                        end
                   else JBool false)).
  { destruct (eq_str act "closed"); [|reflexivity].
    exact (dict_get_of_dict pr "merged" "id" id (JBool false) Eid). }
  rewrite Hm in H. clear Hm.
  assert (Hflag : eq_str act "closed" &&
                  truthy (if eq_str act "closed"
                          then match getitem pr "merged" with
                               | Ok v => v
                               | Raise _ => JBool false
                               end
                          else JBool false) =
                  eq_str act "closed" &&
                  match getitem pr "merged" with
                  | Ok flag => truthy flag
                  | Raise _ => false
                  end).
  { destruct (eq_str act "closed"); [|reflexivity]. simpl.
    destruct (getitem pr "merged"); reflexivity. }
  assert (Hfields :
    getitem pr "id" = Ok id /\
    (exists user0, getitem pr "user" = Ok user0 /\
                   getitem user0 "login" = Ok login) /\
    (exists head0, getitem pr "head" = Ok head0 /\
                   getitem head0 "ref" = Ok head_ref) /\
    (exists base0, getitem pr "base" = Ok base0 /\
                   getitem base0 "ref" = Ok base_ref)).
  { split; [exact Eid|]. split; [exists user; split; assumption|].
    split; [exists head; split; assumption|]. exists base; split; assumption. }
  destruct (eq_str act "opened") eqn:Eo.
  - destruct (getitem pr "created_at") as [time|] eqn:Et; [|discriminate].
    simpl in H. rewrite Hflag in H.
    exists act, pr, id, login, head_ref, base_ref, time.
    rewrite Eo. repeat (split; [first [reflexivity | assumption]|]).
    destruct (eq_str act "closed" && _); inversion H; reflexivity.
  - destruct (getitem pr "updated_at") as [updated|] eqn:Et; [|discriminate].
    rewrite (dict_get_of_dict pr "merged_at" "id" id updated Eid) in H.
    simpl in H. rewrite Hflag in H.
    exists act, pr, id, login, head_ref, base_ref, (merge_time pr updated).
    rewrite Eo. repeat (split; [first [reflexivity | assumption]|]).
    split; [exists updated; split; [exact Et | reflexivity]|].
    unfold merge_time.
    destruct (eq_str act "closed" && _); inversion H; reflexivity.
Qed.

Lemma pull_request_event_doc_opened payload pr id login head_ref base_ref
      created :
  pull_request_of payload "opened" pr ->
  pr_fields pr id login head_ref base_ref ->
  getitem pr "created_at" = Ok created ->
  pull_request_event_doc py_repr payload =
    Ok (inr (pull_request_doc PULL_REQUEST ("pr_" ++ py_str py_repr id)
               login head_ref base_ref created)).
Proof.
  intros [Ha Hp] [Hid [[user [Hu Hl]] [[head [Hh Hhr]] [base [Hb Hbr]]]]] Hc.
  unfold pull_request_event_doc, rbind.
  rewrite Ha, Hp, Hid, Hu, Hl, Hh, Hhr, Hb, Hbr. simpl. rewrite Hc.
  reflexivity.
Qed.

Lemma pull_request_event_doc_merged payload pr id login head_ref base_ref
      updated flag :
  pull_request_of payload "closed" pr ->
  pr_fields pr id login head_ref base_ref ->
  getitem pr "updated_at" = Ok updated ->
  getitem pr "merged" = Ok flag ->
  truthy flag = true ->
  pull_request_event_doc py_repr payload =
    Ok (inr (pull_request_doc MERGE ("merge_" ++ py_str py_repr id)
               login head_ref base_ref (merge_time pr updated))).
Proof.
  intros [Ha Hp] [Hid [[user [Hu Hl]] [[head [Hh Hhr]] [base [Hb Hbr]]]]]
         Hup Hm Ht.
  unfold pull_request_event_doc, rbind.
  rewrite Ha, Hp, Hid, Hu, Hl, Hh, Hhr, Hb, Hbr. simpl. rewrite Hup.
  rewrite (dict_get_of_dict pr "merged_at" "id" id updated Hid).
  rewrite (dict_get_of_dict pr "merged" "id" id (JBool false) Hid).
  rewrite Hm, Ht. reflexivity.
Qed.

Lemma normalize_pull_request (payload : json) (d : event_doc) :
  pull_request_event_doc py_repr payload = Ok (inr d) ->
  normalize py_repr (pull_request_request payload) = Some d.
Proof. intros H. unfold normalize. simpl. rewrite H. reflexivity. Qed.

Lemma handle_pull_request_event_stored payload c d c' :
  handle_pull_request_event py_repr payload c = (Stored d, c') ->
  pull_request_event_doc py_repr payload = Ok (inr d).
Proof.
  unfold handle_pull_request_event, try_except, bind, lift.
  destruct (pull_request_event_doc py_repr payload) as [[act|d0]|e];
    simpl; try discriminate.
  pose proof (store_event_effect d0 c) as He.
  destruct (store_event d0 c) as [[o|e] c0]; simpl in He; [|discriminate].
  intros H. inversion H; subst o c0.
  inversion He; subst. reflexivity.
Qed.



End PullRequestHandler.

(** C4, where the code departs from the specification.  Line 113 takes
    [pull_request.get('merged_at', pull_request['updated_at'])].  The
    default only stands in for a key that is missing: a merge whose
    [merged_at] is null is stored with a null timestamp, not with its
    [updated_at].  And the default is computed before [get] is called: a
    merge that has its [merged_at] but no [updated_at] ends in [KeyError]
    and is not stored at all. *)
Theorem merge_timestamp_null :
  (exists d,
      handle_pull_request_event plain_repr
        (closed_with 123 (JBool true) JNull) empty_collection
      = (Stored d, {| docs := [d]; faults := [] |}) /\
      action d = MERGE /\
      timestamp d = JNull /\
      timestamp d <> JStr "2024-06-01T00:00:05Z") /\
  classify_spec (Some "pull_request") (closed_with 123 (JBool true) JNull)
    = Merge /\
  classify_spec (Some "pull_request") (merged_without_updated_at 123)
    = Merge /\
  handle_pull_request_event plain_repr (merged_without_updated_at 123)
    feed_example
  = (Failed (KeyError "updated_at"), feed_example).
Proof.
  split; [|repeat split].
  eexists. split; [reflexivity|]. repeat split. discriminate.
Qed.



(** ** The endpoint as a classifier *)

Section Classifier.

Variable py_repr : json -> string.

Lemma normalize_class (kind : option string) (payload : json)
      (d : event_doc) :
  normalize py_repr {| github_event := kind; json_body := Decoded payload |}
    = Some d ->
  classify kind payload = kind_of_action (action d).
Proof.
  unfold normalize, classify. cbn [json_body github_event].
  destruct (header_is kind "push").
  - destruct (push_event_doc payload) as [d'|] eqn:E; [|discriminate].
    intros H; inversion H; subst d'.
    destruct (push_event_doc_inv _ _ E) as [-> _]. reflexivity.
  - destruct (header_is kind "pull_request"); [|discriminate].
    destruct (pull_request_event_doc py_repr payload) as [[a|d']|] eqn:E;
      try discriminate.
    intros H; inversion H; subst d'.
    destruct (pull_request_event_doc_inv _ _ _ E)
      as [act [pr [id [login [hr [br [time [Ea [_ [_ [_ Hr]]]]]]]]]]].
    rewrite Ea.
    destruct (eq_str act "opened") eqn:Eo.
    + apply eq_str_true in Eo. subst act. simpl in Hr.
      inversion Hr; subst d. reflexivity.
    + destruct (eq_str act "closed" && merged_true payload);
        inversion Hr; subst d; reflexivity.
Qed.

Lemma classify_unhandled (kind : option string) (payload : json) :
  classify kind payload = Unhandled ->
  normalize py_repr {| github_event := kind; json_body := Decoded payload |}
    = None.
Proof.
  intros Hu.
  destruct (normalize py_repr
              {| github_event := kind; json_body := Decoded payload |})
    as [d|] eqn:E; [|reflexivity].
  rewrite (normalize_class kind payload d E) in Hu.
  destruct (action d); discriminate.
Qed.

(** The class of a pull-request notification, read back from [classify]. *)
Lemma classify_pull_request (kind : option string) (payload : json) :
  classify kind payload = PullRequestOpened \/ classify kind payload = Merge ->
  header_is kind "push" = false /\ header_is kind "pull_request" = true /\
  exists act,
    getitem payload "action" = Ok act /\
    (classify kind payload = PullRequestOpened -> act = JStr "opened") /\
    (classify kind payload = Merge ->
     act = JStr "closed" /\ merged_true payload = true).
Proof.
  unfold classify.
  destruct (header_is kind "push"); [intros [H|H]; discriminate|].
  destruct (header_is kind "pull_request"); [|intros [H|H]; discriminate].
  destruct (getitem payload "action") as [act|]; [|intros [H|H]; discriminate].
  intros H. split; [reflexivity|]. split; [reflexivity|].
  exists act. split; [reflexivity|].
  destruct (eq_str act "opened") eqn:Eo.
  - split; [intros _; apply eq_str_true; exact Eo | discriminate].
  - destruct (eq_str act "closed") eqn:Ec; simpl in *.
    + destruct (merged_true payload).
      * split; [discriminate|]. intros _.
        split; [apply eq_str_true; exact Ec | reflexivity].
      * destruct H; discriminate.
    + destruct H; discriminate.
Qed.

Lemma merged_true_flag (payload pr : json) :
  getitem payload "pull_request" = Ok pr ->
  merged_true payload = true ->
  exists flag, getitem pr "merged" = Ok flag /\ truthy flag = true.
Proof.
  unfold merged_true, rbind. intros ->.
  destruct (getitem pr "merged") as [flag|]; [|discriminate].
  intros H. exists flag. split; [reflexivity | exact H].
Qed.


(** ** Store errors *)

Lemma store_event_lookup_fails (d : event_doc) (c : collection) msg later :
  faults c = Some msg :: later ->
  store_event d c =
    (Raise (StoreError msg), {| docs := docs c; faults := later |}).
Proof.
  destruct c as [ds fs]; simpl. intros ->. reflexivity.
Qed.

Lemma store_event_insert_fails (d : event_doc) (c : collection) msg later :
  faults c = None :: Some msg :: later ->
  no_match (request_id d) (docs c) ->
  store_event d c =
    (Raise (StoreError msg), {| docs := docs c; faults := later |}).
Proof.
  destruct c as [ds fs]; simpl. intros -> Hn.
  unfold store_event, bind, find_one, insert_one, server_call. simpl.
  rewrite (find_one_no_match _ _ Hn). reflexivity.
Qed.

(** X20.  What the endpoint does with an error of the store.  When the
    lookup raises, or the key is a string not yet held and the insert
    raises, while a notification is handled, the handler catches the error:
    no document is added and the endpoint answers with the success
    acknowledgement, status 200.  The endpoint answers with status 500
    exactly when the body of the request cannot be read. *)
Theorem store_error_is_acknowledged :
  forall req d c msg later,
    normalize py_repr req = Some d ->
    (faults c = Some msg :: later \/
     (faults c = None :: Some msg :: later /\
      string_key (request_id d) /\ ~ In (request_id d) (keys c))) ->
    store_event d c =
      (Raise (StoreError msg), {| docs := docs c; faults := later |}) /\
    webhook py_repr req c =
      ({| status := "success"; message := None; status_code := 200 |},
       {| docs := docs c; faults := later |}) /\
    (forall req0 c0,
        status_code (fst (webhook py_repr req0 c0)) = 500 <->
        exists error, json_body req0 = Undecodable error).
Proof.
  intros req d c msg later Hn Hf.
  assert (Hs : store_event d c =
               (Raise (StoreError msg), {| docs := docs c; faults := later |})).
  { destruct Hf as [Hf|[Hf [Hk Hnin]]].
    - exact (store_event_lookup_fails d c msg later Hf).
    - apply (store_event_insert_fails d c msg later Hf).
      apply (no_match_key _ _ Hk). exact Hnin. }
  split; [exact Hs|]. split.
  - pose proof (webhook_normalized py_repr req d c Hn) as Hw.
    rewrite Hs in Hw. cbn [snd] in Hw.
    unfold normalize in Hn. unfold webhook in *.
    destruct (json_body req); [|discriminate].
    cbn [snd] in Hw. rewrite Hw. reflexivity.
  - intros req0 c0. unfold webhook.
    destruct (json_body req0) as [payload|error]; cbn [fst status_code].
    + split; [discriminate | intros [error H]; discriminate].
    + split; [intros _; exists error; reflexivity | reflexivity].
Qed.

End Classifier.



Lemma store_error_is_acknowledged_witness :
  webhook plain_repr
    (push_request (push_payload "abc123" "refs/heads/main"
                                "2024-06-01T00:00:00Z"))
    {| docs := []; faults := [Some "timed out"] |} =
  ({| status := "success"; message := None; status_code := 200 |},
   empty_collection).
Proof.
  refine (proj1 (proj2 (store_error_is_acknowledged plain_repr
            (push_request (push_payload "abc123" "refs/heads/main"
                                        "2024-06-01T00:00:00Z"))
            {| request_id := JStr "abc123";
               author := JStr "octocat";
               action := PUSH;
               from_branch := JNull;
               to_branch := JStr "main";
               timestamp := JStr "2024-06-01T00:00:00Z" |}
            {| docs := []; faults := [Some "timed out"] |}
            "timed out" [] _ _))).
  - reflexivity.
  - left. reflexivity.
Defined.

(** C8, where the code departs from the specification.  The lookup of a
    push times out: the handler catches the error under its own [try], the
    endpoint never sees it and answers with the success acknowledgement,
    status 200, although nothing was stored.  The same happens when the
    lookup is answered and the insert times out.  The [except] of the
    endpoint would have answered 500, as it does for a body it cannot read,
    and the feed endpoint answers a store error with an error. *)
Theorem store_error_not_surfaced :
  handle_push_event example_push timing_out
    = (Failed (StoreError "timed out"), empty_collection) /\
  webhook plain_repr (push_request example_push) timing_out
    = ({| status := "success"; message := None; status_code := 200 |},
       empty_collection) /\
  status_code (fst (webhook plain_repr (push_request example_push) timing_out))
    <> 500 /\
  webhook plain_repr (push_request example_push)
    {| docs := []; faults := [None; Some "timed out"] |}
    = ({| status := "success"; message := None; status_code := 200 |},
       empty_collection) /\
  webhook plain_repr
    {| github_event := Some "push"; json_body := Undecodable "400 Bad Request" |}
    timing_out
    = ({| status := "error"; message := Some "400 Bad Request";
          status_code := 500 |},
       timing_out) /\
  fst (get_events documented_fromisoformat timing_out)
    = EventsError "timed out".
Proof. repeat split. discriminate. Qed.

Lemma push_duplicate_of_any_kind_witness :
  map action (docs with_pr_123) = [PULL_REQUEST] /\
  docs (snd (handle_push_event
               (push_payload "pr_123" "refs/heads/main" "2024-06-01T00:00:00Z")
               with_pr_123)) = docs with_pr_123 /\
  fst (handle_push_event
         (push_payload "pr_123" "refs/heads/main" "2024-06-01T00:00:00Z")
         with_pr_123)
    = Skipped (JStr "pr_123").
Proof.
  destruct (push_duplicate_of_any_kind
              (push_payload "pr_123" "refs/heads/main" "2024-06-01T00:00:00Z")
              (JObj [("id", JStr "pr_123");
                     ("timestamp", JStr "2024-06-01T00:00:00Z")])
              "pr_123" with_pr_123)
    as [Hdocs [_ Hskip]].
  - reflexivity.
  - reflexivity.
  - left. reflexivity.
  - split; [reflexivity|]. split; [exact Hdocs|].
    apply (Hskip {| request_id := JStr "pr_123";
                    author := JStr "octocat";
                    action := PUSH;
                    from_branch := JNull;
                    to_branch := JStr "main";
                    timestamp := JStr "2024-06-01T00:00:00Z" |}).
    + reflexivity.
    + exact I.
Defined.

(** ** Handlers running at the same time *)

(** A handler that runs its two calls with no other in between does what
    [store_event] does under its [try]. *)
Lemma run_alone (d : event_doc) (c : collection) :
  run [0%nat; 0%nat] [Ready d] c =
  ([Finished (fst (try_except (store_event d) c))],
   snd (try_except (store_event d) c)).
Proof.
  destruct c as [ds fs].
  unfold try_except, store_event, bind, ret. cbn [run nth_error step].
  unfold find_one, insert_one, bind, server_call.
  cbn [faults docs].
  destruct fs as [|[msg|] fs]; cbn.
  - destruct (List.find _ ds); reflexivity.
  - reflexivity.
  - destruct (List.find _ ds); cbn; [reflexivity|].
    destruct fs as [|[msg|] fs]; reflexivity.
Qed.

Lemma step_lookup_absent (d : event_doc) (ds : list event_doc) :
  no_match (request_id d) ds ->
  step (Ready d) {| docs := ds; faults := [] |} =
  (Checked d, {| docs := ds; faults := [] |}).
Proof.
  intros Hn. unfold step, find_one, bind, server_call. cbn [faults docs].
  rewrite (find_one_no_match _ _ Hn). reflexivity.
Qed.

Lemma step_insert (d : event_doc) (ds : list event_doc) :
  step (Checked d) {| docs := ds; faults := [] |} =
  (Finished (Stored d), {| docs := (ds ++ [d])%list; faults := [] |}).
Proof. reflexivity. Qed.

(** Two handlers given the same new document, both looking the key up
    before either inserts: both insert. *)
Lemma both_insert (d : event_doc) (c : collection) :
  healthy c -> no_match (request_id d) (docs c) ->
  run [0%nat; 1%nat; 0%nat; 1%nat] [Ready d; Ready d] c =
  ([Finished (Stored d); Finished (Stored d)],
   {| docs := (docs c ++ [d; d])%list; faults := [] |}).
Proof.
  unfold healthy. destruct c as [ds fs]; cbn [docs faults].
  intros -> Hnin.
  cbn [run nth_error]. rewrite (step_lookup_absent d ds Hnin).
  cbn [run nth_error set_nth]. rewrite (step_lookup_absent d ds Hnin).
  cbn [run nth_error set_nth]. rewrite step_insert.
  cbn [run nth_error set_nth]. rewrite step_insert.
  cbn [run nth_error set_nth]. rewrite <- app_assoc. reflexivity.
Qed.

(** C9, where the code departs from the specification.  Two deliveries of
    one push notification, handled at the same time on an empty collection
    with the two lookups before the two inserts: both handlers report the
    event stored and the collection ends with two documents under the one
    key.  Handled one after the other, the second is skipped. *)
Theorem concurrent_duplicates_both_stored :
  push_event_doc example_push = Ok example_push_doc /\
  run [0%nat; 1%nat; 0%nat; 1%nat]
      [Ready example_push_doc; Ready example_push_doc] empty_collection =
  ([Finished (Stored example_push_doc); Finished (Stored example_push_doc)],
   {| docs := [example_push_doc; example_push_doc]; faults := [] |}) /\
  count_key (JStr "abc123")
    (snd (run [0%nat; 1%nat; 0%nat; 1%nat]
              [Ready example_push_doc; Ready example_push_doc]
              empty_collection)) = 2%nat /\
  run [0%nat; 0%nat; 1%nat; 1%nat]
      [Ready example_push_doc; Ready example_push_doc] empty_collection =
  ([Finished (Stored example_push_doc);
    Finished (Skipped (JStr "abc123"))],
   {| docs := [example_push_doc]; faults := [] |}).
Proof.
  split; [reflexivity|]. split; [|split].
  - apply (both_insert example_push_doc empty_collection);
      [reflexivity | intros x []].
  - rewrite (both_insert example_push_doc empty_collection);
      [reflexivity | reflexivity | intros x []].
  - reflexivity.
Qed.

(** ** The feed order *)

Lemma string_leb_trans (a b c : string) :
  (a <=? b)%string = true -> (b <=? c)%string = true ->
  (a <=? c)%string = true.
Proof.
  unfold String.leb. revert b c.
  induction a as [|x a IH]; intros [|y b] [|z c]; simpl;
    try congruence.
  unfold Ascii.compare.
  destruct (N.compare_spec (N_of_ascii x) (N_of_ascii y)) as [E1|L1|G1];
    destruct (N.compare_spec (N_of_ascii y) (N_of_ascii z)) as [E2|L2|G2];
    destruct (N.compare_spec (N_of_ascii x) (N_of_ascii z)) as [E3|L3|G3];
    try congruence; try lia.
  apply IH.
Qed.

Lemma key_leb_total (a b : nat * string) :
  key_leb a b = true \/ key_leb b a = true.
Proof.
  unfold key_leb. destruct a as [m s], b as [n t]; simpl.
  destruct (Nat.ltb_spec m n) as [|H1]; [left; reflexivity|].
  destruct (Nat.ltb_spec n m) as [|H2]; [right; reflexivity|].
  assert (E : m = n) by lia. subst n. rewrite Nat.eqb_refl. simpl.
  apply String.leb_total.
Qed.

Lemma key_leb_trans (a b c : nat * string) :
  key_leb a b = true -> key_leb b c = true -> key_leb a c = true.
Proof.
  unfold key_leb. destruct a as [m s], b as [n t], c as [p u]; simpl.
  intros H1 H2.
  apply orb_true_iff in H1. apply orb_true_iff in H2. apply orb_true_iff.
  destruct H1 as [H1|H1], H2 as [H2|H2].
  - left. apply Nat.ltb_lt in H1, H2. apply Nat.ltb_lt. lia.
  - apply andb_true_iff in H2. destruct H2 as [H2 _].
    apply Nat.eqb_eq in H2. subst p. left; exact H1.
  - apply andb_true_iff in H1. destruct H1 as [H1 _].
    apply Nat.eqb_eq in H1. subst n. left; exact H2.
  - apply andb_true_iff in H1. destruct H1 as [H1 H1'].
    apply andb_true_iff in H2. destruct H2 as [H2 H2'].
    apply Nat.eqb_eq in H1, H2. subst n p. right.
    rewrite Nat.eqb_refl. simpl. exact (string_leb_trans _ _ _ H1' H2').
Qed.

Lemma ts_leb_total (a b : json) : ts_leb a b = true \/ ts_leb b a = true.
Proof. apply key_leb_total. Qed.

Lemma ts_leb_trans (a b c : json) :
  ts_leb a b = true -> ts_leb b c = true -> ts_leb a c = true.
Proof. apply key_leb_trans. Qed.

Lemma insert_desc_perm (d : event_doc) (l : list event_doc) :
  Permutation (insert_desc d l) (d :: l).
Proof.
  induction l as [|x rest IH]; simpl.
  - apply Permutation_refl.
  - destruct (ts_leb (timestamp x) (timestamp d)).
    + apply Permutation_refl.
    + apply perm_trans with (x :: d :: rest).
      * apply perm_skip. exact IH.
      * apply perm_swap.
  Qed.

Lemma sort_desc_perm (l : list event_doc) : Permutation (sort_desc l) l.
Proof.
  induction l as [|d rest IH]; simpl.
  - apply perm_nil.
  - apply perm_trans with (d :: sort_desc rest).
    + apply insert_desc_perm.
    + apply perm_skip. exact IH.
Qed.

Lemma insert_desc_sorted (d : event_doc) (l : list event_doc) :
  StronglySorted not_earlier l -> StronglySorted not_earlier (insert_desc d l).
Proof.
  induction l as [|x rest IH]; intros Hs; simpl.
  - constructor; constructor.
  - inversion Hs as [|? ? Hrest Hall]; subst.
    destruct (ts_leb (timestamp x) (timestamp d)) eqn:E.
    + constructor; [exact Hs|]. constructor; [exact E|].
      rewrite Forall_forall in *. intros y Hy. unfold not_earlier in *.
      exact (ts_leb_trans _ _ _ (Hall y Hy) E).
    + constructor; [exact (IH Hrest)|].
      apply (Permutation_Forall (Permutation_sym (insert_desc_perm d rest))).
      constructor; [|exact Hall]. unfold not_earlier.
      destruct (ts_leb_total (timestamp d) (timestamp x)) as [H|H];
        [exact H | congruence].
Qed.

Lemma sort_desc_sorted (l : list event_doc) :
  StronglySorted not_earlier (sort_desc l).
Proof.
  induction l as [|d rest IH]; simpl.
  - constructor.
  - apply insert_desc_sorted. exact IH.
Qed.

Lemma sorted_suffix (before l : list event_doc) :
  StronglySorted not_earlier (before ++ l) -> StronglySorted not_earlier l.
Proof.
  induction before as [|x before IH]; simpl; intros H; [exact H|].
  inversion H; subst. apply IH. assumption.
Qed.

Lemma find_sorted_answered (c : collection) :
  answered c ->
  exists c', find_sorted c = (Ok (sort_desc (docs c)), c') /\
             docs c' = docs c.
Proof.
  unfold answered, find_sorted, bind, server_call.
  destruct c as [ds fs]; cbn [faults docs].
  destruct fs as [|[msg|] fs]; intros H; try contradiction;
    eexists; split; reflexivity.
Qed.

(** *** Timestamps with the UTC designator compare as their moments *)

Lemma compare_append (p p' r r' : string) :
  String.length p = String.length p' ->
  String.compare (p ++ r) (p' ++ r') =
  then_by (String.compare p p') (String.compare r r').
Proof.
  revert p'. induction p as [|x p IH]; intros [|y p'] H; simpl in *;
    try discriminate.
  - reflexivity.
  - destruct (Ascii.compare x y); try reflexivity.
    apply IH. congruence.
Qed.

Lemma digit_char_compare (d d' : Z) :
  0 <= d <= 9 -> 0 <= d' <= 9 ->
  Ascii.compare (digit_char d) (digit_char d') = (d ?= d').
Proof.
  intros H H'.
  assert (C : d = 0 \/ d = 1 \/ d = 2 \/ d = 3 \/ d = 4 \/ d = 5 \/
              d = 6 \/ d = 7 \/ d = 8 \/ d = 9) by lia.
  assert (C' : d' = 0 \/ d' = 1 \/ d' = 2 \/ d' = 3 \/ d' = 4 \/ d' = 5 \/
               d' = 6 \/ d' = 7 \/ d' = 8 \/ d' = 9) by lia.
  repeat (destruct C as [C|C]; [subst d|]); [..|subst d];
    repeat (destruct C' as [C'|C']; [subst d'; reflexivity|]);
    subst d'; reflexivity.
Qed.

Lemma then_by_base (base q r q' r' : Z) :
  0 <= r < base -> 0 <= r' < base ->
  then_by (q ?= q') (r ?= r') = (q * base + r ?= q' * base + r').
Proof.
  intros H H'. unfold then_by.
  destruct (Z.compare_spec q q') as [->|L|G].
  - destruct (Z.compare_spec r r') as [->|L|G]; symmetry.
    + apply Z.compare_eq_iff. reflexivity.
    + apply Z.compare_lt_iff. lia.
    + apply Z.compare_gt_iff. lia.
  - symmetry. apply Z.compare_lt_iff. nia.
  - symmetry. apply Z.compare_gt_iff. nia.
Qed.

Lemma split_base (base n : Z) :
  0 < base -> n = (n / base) * base + n mod base.
Proof. intros H. rewrite Z.mul_comm. apply Z.div_mod. lia. Qed.

Lemma two_digits_compare (n n' : Z) :
  0 <= n < 100 -> 0 <= n' < 100 ->
  String.compare (two_digits n) (two_digits n') = (n ?= n').
Proof.
  intros H H'. unfold two_digits. cbn [String.compare].
  assert (Hq : 0 <= n / 10 < 10)
    by (split; [apply Z.div_pos; lia | apply Z.div_lt_upper_bound; lia]).
  assert (Hq' : 0 <= n' / 10 < 10)
    by (split; [apply Z.div_pos; lia | apply Z.div_lt_upper_bound; lia]).
  pose proof (Z.mod_pos_bound n 10 ltac:(lia)) as Hr.
  pose proof (Z.mod_pos_bound n' 10 ltac:(lia)) as Hr'.
  rewrite !digit_char_compare by lia.
  rewrite (split_base 10 n) at 3 by lia.
  rewrite (split_base 10 n') at 3 by lia.
  rewrite <- (then_by_base 10) by lia.
  unfold then_by.
  destruct (n / 10 ?= n' / 10); try reflexivity.
  destruct (n mod 10 ?= n' mod 10); reflexivity.
Qed.

Lemma four_digits_compare (n n' : Z) :
  0 <= n < 10000 -> 0 <= n' < 10000 ->
  String.compare (four_digits n) (four_digits n') = (n ?= n').
Proof.
  intros H H'. unfold four_digits.
  assert (Hq : 0 <= n / 100 < 100)
    by (split; [apply Z.div_pos; lia | apply Z.div_lt_upper_bound; lia]).
  assert (Hq' : 0 <= n' / 100 < 100)
    by (split; [apply Z.div_pos; lia | apply Z.div_lt_upper_bound; lia]).
  pose proof (Z.mod_pos_bound n 100 ltac:(lia)) as Hr.
  pose proof (Z.mod_pos_bound n' 100 ltac:(lia)) as Hr'.
  rewrite compare_append by reflexivity.
  rewrite !two_digits_compare by lia.
  rewrite (split_base 100 n) at 3 by lia.
  rewrite (split_base 100 n') at 3 by lia.
  apply then_by_base; lia.
Qed.

Lemma days_in_month_le (y m : Z) : days_in_month y m <= 31.
Proof.
  unfold days_in_month.
  destruct (m =? 2); [destruct (is_leap y); lia|].
  destruct ((m =? 4) || (m =? 6) || (m =? 9) || (m =? 11)); lia.
Qed.

Lemma calendar_ranges (dt : datetime) :
  calendar dt ->
  0 <= year dt < 10000 /\ 0 <= month dt < 100 /\ 0 <= day dt < 100 /\
  0 <= hour dt < 100 /\ 0 <= minute dt < 100 /\ 0 <= second dt < 100.
Proof.
  unfold calendar, valid_date. intros [Hd [Hh [Hm Hs]]].
  repeat (apply andb_true_iff in Hd; destruct Hd as [Hd ?]).
  repeat match goal with
         | H : (_ <=? _) = true |- _ => apply Z.leb_le in H
         end.
  pose proof (days_in_month_le (year dt) (month dt)). lia.
Qed.

Lemma compare_separator (c : ascii) (r r' : string) :
  String.compare (String c EmptyString ++ r) (String c EmptyString ++ r') =
  String.compare r r'.
Proof.
  simpl. unfold Ascii.compare. rewrite N.compare_refl. reflexivity.
Qed.

(** Byte order on such texts is the order of the moments they write. *)
Lemma utc_text_compare (a b : datetime) :
  calendar a -> calendar b ->
  String.compare (utc_text a) (utc_text b) = chronological a b.
Proof.
  intros Ha Hb.
  destruct (calendar_ranges a Ha) as [Ay [Am [Ad [Ah [Ai As]]]]].
  destruct (calendar_ranges b Hb) as [By [Bm [Bd [Bh [Bi Bs]]]]].
  unfold utc_text, chronological.
  rewrite compare_append by reflexivity.
  rewrite four_digits_compare by assumption. f_equal.
  do 4 (rewrite compare_separator;
        rewrite compare_append by reflexivity;
        rewrite two_digits_compare by assumption; f_equal).
  rewrite compare_separator.
  rewrite compare_append by reflexivity.
  rewrite two_digits_compare by assumption.
  unfold then_by. destruct (second a ?= second b); reflexivity.
Qed.

Section FeedOrder.

Variable fromisoformat : string -> option datetime.


End FeedOrder.


(** C6, where the code departs from the specification.  The feed is
    sorted on the texts of the timestamps, not on the moments they denote.
    [test.py] writes its timestamps with microseconds and GitHub writes
    whole seconds: of the script's document dated 12:00:07.250000 and a pull
    request dated 12:00:07 of the same day, the feed lists the pull request
    first, although it is the older by a quarter of a second.  A push
    carries the committer's offset: of a push dated 10:00 at +05:30, that is
    04:30 universal time, and a pull request dated 05:00Z of the same day,
    the feed lists the push first, although it is the older by half an
    hour. *)
Theorem feed_not_newest_first :
  listed (fst (get_events documented_fromisoformat script_and_github))
  = [JStr "2026-01-29T12:00:07Z"; JStr "2026-01-29T12:00:07.250000Z"] /\
  (exists first second,
      moment "2026-01-29T12:00:07Z" = Some first /\
      moment "2026-01-29T12:00:07.250000Z" = Some second /\
      first < second) /\
  listed (fst (get_events documented_fromisoformat push_from_the_east))
  = [JStr "2024-06-01T10:00:00+05:30"; JStr "2024-06-01T05:00:00Z"] /\
  (exists first second,
      moment "2024-06-01T10:00:00+05:30" = Some first /\
      moment "2024-06-01T05:00:00Z" = Some second /\
      first < second).
Proof.
  split; [reflexivity|]. split; [|split; [reflexivity|]].
  - eexists. eexists. split; [vm_compute; reflexivity|].
    split; [vm_compute; reflexivity | reflexivity].
  - eexists. eexists. split; [vm_compute; reflexivity|].
    split; [vm_compute; reflexivity | reflexivity].
Qed.

(** ** The rendering of a timestamp *)

Lemma prefix_split (a s : string) :
  String.prefix a s = true -> exists tail, s = a ++ tail.
Proof.
  revert s. induction a as [|x a IH]; intros s H.
  - exists s. reflexivity.
  - destruct s as [|y s]; simpl in H; [discriminate|].
    destruct (ascii_dec x y) as [->|]; [|discriminate].
    destruct (IH s H) as [tail ->]. exists tail. reflexivity.
Qed.

Lemma replace_from_skip (old new pre s : string) :
  replace_from old new (String.length pre) (pre ++ s) =
  replace_from old new 0 s.
Proof.
  induction pre as [|x pre IH]; simpl.
  - reflexivity.
  - exact IH.
Qed.

Lemma append_length (a b : string) :
  String.length (a ++ b) = (String.length a + String.length b)%nat.
Proof. induction a as [|x a IH]; simpl; [reflexivity | rewrite IH; reflexivity]. Qed.

Lemma replace_from_same (x : ascii) (old : string) (n : nat) :
  forall s, (String.length s <= n)%nat ->
            replace_from (String x old) (String x old) 0 s = s.
Proof.
  induction n as [|n IH]; intros s Hlen.
  - destruct s; [reflexivity | simpl in Hlen; lia].
  - destruct s as [|c rest]; [reflexivity|].
    cbn [replace_from].
    destruct (String.prefix (String x old) (String c rest)) eqn:E.
    + destruct (prefix_split _ _ E) as [tail Ht].
      simpl in Ht. inversion Ht; subst c rest.
      replace (String.length (String x old) - 1)%nat
        with (String.length old) by (simpl; lia).
      rewrite replace_from_skip. rewrite IH; [reflexivity|].
      simpl in Hlen. rewrite append_length in Hlen. lia.
    + rewrite IH; [reflexivity | simpl in Hlen; lia].
Qed.

(** Line 189 replaces a text by itself. *)
Lemma replace_same (old s : string) :
  old <> EmptyString -> replace old old s = s.
Proof.
  destruct old as [|x old]; [congruence|]. intros _. unfold replace.
  apply (replace_from_same x old (String.length s)). lia.
Qed.

Lemma below_forall (P : Z -> bool) (bound : Z) :
  forallb (fun k => P (Z.of_nat k)) (seq 0 (Z.to_nat bound)) = true ->
  forall n, 0 <= n < bound -> P n = true.
Proof.
  intros H n Hn. rewrite forallb_forall in H.
  specialize (H (Z.to_nat n)). rewrite Z2Nat.id in H by lia.
  apply H. apply in_seq. lia.
Qed.

Lemma suffix_ordinal (d : Z) :
  1 <= d <= 31 -> suffix d = ordinal_suffix d.
Proof.
  intros H. apply String.eqb_eq.
  apply (below_forall (fun n => (suffix n =? ordinal_suffix n)%string) 32);
    [vm_compute; reflexivity | lia].
Qed.

Lemma zero_pad_two (n : Z) : 0 <= n < 100 -> zero_pad 2 n = two_digits n.
Proof.
  intros H. apply String.eqb_eq.
  apply (below_forall (fun n => (zero_pad 2 n =? two_digits n)%string) 100);
    [vm_compute; reflexivity | lia].
Qed.

(** From the year 1000 on the decimal text of a year has four digits. *)
Lemma str_of_int_four (n : Z) :
  1000 <= n < 10000 -> str_of_int n = four_digits n.
Proof.
  intros H. apply String.eqb_eq.
  assert (Hn : (n <? 1000) || (str_of_int n =? four_digits n)%string = true).
  { apply (below_forall
             (fun n => (n <? 1000) || (str_of_int n =? four_digits n)%string)
             10000); [vm_compute; reflexivity | lia]. }
  apply orb_true_iff in Hn. destruct Hn as [Hn|Hn]; [|exact Hn].
  apply Z.ltb_lt in Hn. lia.
Qed.

Lemma suffix_cases (d : Z) :
  suffix d = "st" \/ suffix d = "nd" \/ suffix d = "rd" \/ suffix d = "th".
Proof.
  unfold suffix. destruct ((10 <=? d mod 100) && (d mod 100 <=? 20)).
  - right; right; right; reflexivity.
  - repeat match goal with
           | |- context [match ?x with _ => _ end] => destruct x
           end; auto.
Qed.

(** The format of line 188 read by [strftime]. *)
Lemma strftime_format (dt : datetime) :
  strftime dt ("%d" ++ suffix (day dt) ++ " %B %Y - %I:%M %p UTC") =
  zero_pad 2 (day dt) ++ suffix (day dt) ++ " "
  ++ month_name (month dt) ++ " " ++ str_of_int (year dt) ++ " - "
  ++ zero_pad 2 (hour12 (hour dt)) ++ ":" ++ zero_pad 2 (minute dt) ++ " "
  ++ am_pm (hour dt) ++ " UTC".
Proof.
  destruct (suffix_cases (day dt)) as [-> | [-> | [-> | ->] ] ]; reflexivity.
Qed.

Lemma digit_range (c : ascii) (d : Z) : digit c = Some d -> 0 <= d <= 9.
Proof.
  unfold digit.
  destruct ((48 <=? Z.of_N (N_of_ascii c)) && (Z.of_N (N_of_ascii c) <=? 57))
    eqn:E; [|discriminate].
  intros H; inversion H; subst d.
  apply andb_true_iff in E. destruct E as [E1 E2].
  apply Z.leb_le in E1, E2. lia.
Qed.

Lemma digits_nonneg (n : nat) :
  forall acc s v r, digits n acc s = Some (v, r) -> 0 <= acc -> 0 <= v.
Proof.
  induction n as [|n IH]; intros acc s v r H Hacc; cbn [digits] in H.
  - inversion H; subst; exact Hacc.
  - destruct s as [|c rest]; [discriminate|].
    destruct (digit c) as [d|] eqn:E; [|discriminate].
    apply digit_range in E. apply (IH _ _ _ _ H). lia.
Qed.

Lemma parse_hh_mm_ss_ff_nonneg (s : string) (h m sec us : Z) :
  parse_hh_mm_ss_ff s = Some (h, m, sec, us) -> 0 <= h /\ 0 <= m.
Proof.
  unfold parse_hh_mm_ss_ff.
  destruct (digits 2 0 s) as [[h0 r1]|] eqn:E1; [|discriminate].
  pose proof (digits_nonneg _ _ _ _ _ E1 (Z.le_refl 0)) as Hh.
  destruct r1 as [|c1 r1]; [intros H; inversion H; subst; lia|].
  destruct (expect ":" (String c1 r1)) as [r2|]; [|discriminate].
  destruct (digits 2 0 r2) as [[m0 r3]|] eqn:E2; [|discriminate].
  pose proof (digits_nonneg _ _ _ _ _ E2 (Z.le_refl 0)) as Hm.
  destruct r3 as [|c3 r3]; [intros H; inversion H; subst; lia|].
  destruct (expect ":" (String c3 r3)) as [r4|]; [|discriminate].
  destruct (digits 2 0 r4) as [[s0 r5]|]; [|discriminate].
  destruct r5 as [|c5 r5]; [intros H; inversion H; subst; lia|].
  destruct (expect "." (String c5 r5)) as [r6|]; [|discriminate].
  destruct (parse_fraction r6); [|discriminate].
  intros H; inversion H; subst; lia.
Qed.

Lemma parse_isoformat_time_nonneg (s : string) (h m sec us : Z) tz :
  parse_isoformat_time s = Some (h, m, sec, us, tz) -> 0 <= h /\ 0 <= m.
Proof.
  unfold parse_isoformat_time.
  destruct (split_sign s) as [timestr sign].
  destruct (parse_hh_mm_ss_ff timestr) as [[[[h0 m0] s0] us0]|] eqn:E;
    [|discriminate].
  apply parse_hh_mm_ss_ff_nonneg in E.
  destruct sign as [[neg tzstr]|].
  - destruct (parse_offset neg tzstr); [|discriminate].
    intros H; inversion H; subst; exact E.
  - intros H; inversion H; subst; exact E.
Qed.

(** What the documented grammar returns is a date of the calendar and a
    time of the day. *)
Lemma documented_fromisoformat_valid (s : string) (dt : datetime) :
  documented_fromisoformat s = Some dt ->
  1 <= year dt <= 9999 /\ 1 <= month dt <= 12 /\ 1 <= day dt <= 31 /\
  0 <= hour dt <= 23 /\ 0 <= minute dt <= 59.
Proof.
  unfold documented_fromisoformat.
  destruct (parse_isoformat_date s) as [[[[y m] d] rest]|]; [|discriminate].
  assert (Ht : forall h mi sec us tz,
             match rest with
             | EmptyString => Some (0, 0, 0, 0, None)
             | _ => parse_isoformat_time (skip_char rest)
             end = Some (h, mi, sec, us, tz) -> 0 <= h /\ 0 <= mi).
  { intros h mi sec us tz. destruct rest.
    - intros H; inversion H; subst; lia.
    - apply parse_isoformat_time_nonneg. }
  destruct (match rest with
            | EmptyString => Some (0, 0, 0, 0, None)
            | _ => parse_isoformat_time (skip_char rest)
            end) as [[[[[h mi] sec] us] tz]|]; [|discriminate].
  specialize (Ht h mi sec us tz eq_refl).
  destruct (valid_date y m d && valid_time h mi sec) eqn:V; [|discriminate].
  intros H; inversion H; subst dt; simpl.
  apply andb_true_iff in V. destruct V as [Vd Vt].
  unfold valid_date in Vd. unfold valid_time in Vt.
  repeat (apply andb_true_iff in Vd; destruct Vd as [Vd ?]).
  repeat (apply andb_true_iff in Vt; destruct Vt as [Vt ?]).
  repeat match goal with
         | H : (_ <=? _) = true |- _ => apply Z.leb_le in H
         end.
  pose proof (days_in_month_le y m). lia.
Qed.

Lemma hour12_range (h : Z) : 0 <= hour12 h < 100.
Proof.
  unfold hour12. pose proof (Z.mod_pos_bound h 12 ltac:(lia)).
  destruct (h mod 12 =? 0); lia.
Qed.

Lemma suffix_nonempty (n : Z) (s : string) : s ++ suffix n <> EmptyString.
Proof.
  destruct s; simpl; [|discriminate].
  destruct (suffix_cases n) as [-> | [-> | [-> | ->] ] ]; discriminate.
Qed.

(** The documented grammar is one of the parsers the properties speak
    of. *)
Lemma documented_reads : reads_iso documented_fromisoformat.
Proof.
  split.
  - exact documented_fromisoformat_valid.
  - intros s dt H E. unfold documented_fromisoformat, parse_isoformat_date in H.
    rewrite E in H. discriminate.
  - intros s dt H. exact H.
Qed.

Section Rendering.

Variable fromisoformat : string -> option datetime.
Hypothesis reads : reads_iso fromisoformat.

Lemma format_timestamp_parsed (s : string) (dt : datetime) :
  fromisoformat (replace "Z" "+00:00" s) = Some dt ->
  format_timestamp fromisoformat (JStr s) = JStr (rendering dt).
Proof.
  intros H. unfold format_timestamp. rewrite H.
  destruct (reads_calendar _ reads _ _ H) as [Hy [Hm [Hd [Hh Hmi]]]].
  rewrite replace_same by apply suffix_nonempty.
  rewrite strftime_format.
  rewrite (zero_pad_two (day dt)) by lia.
  rewrite (zero_pad_two (minute dt)) by lia.
  rewrite (zero_pad_two (hour12 (hour dt))) by apply hour12_range.
  rewrite (suffix_ordinal (day dt)) by lia.
  reflexivity.
Qed.

Lemma rendering_display (dt : datetime) :
  1000 <= year dt <= 9999 -> rendering dt = display dt.
Proof.
  intros H. unfold rendering, display.
  rewrite (str_of_int_four (year dt)) by lia. reflexivity.
Qed.


End Rendering.



(** * Further properties of the handlers *)

(** ** Payloads the push handler cannot read *)

Lemma push_event_doc_ref (payload : json) (d : event_doc) :
  push_event_doc payload = Ok d ->
  exists pusher ref,
    getitem payload "pusher" = Ok pusher /\
    getitem pusher "name" = Ok (author d) /\
    getitem payload "ref" = Ok (JStr ref) /\
    to_branch d = JStr (last_item (split "/" ref)).
Proof.
  unfold push_event_doc, rbind.
  destruct (getitem payload "head_commit") as [h|]; [|discriminate].
  destruct (getitem h "id") as [id|]; [|discriminate].
  destruct (getitem payload "pusher") as [p|] eqn:Ep; [|discriminate].
  destruct (getitem p "name") as [n|] eqn:En; [|discriminate].
  destruct (getitem payload "ref") as [r|] eqn:Er; [|discriminate].
  destruct r; simpl; try discriminate.
  destruct (getitem h "timestamp") as [t|]; [|discriminate].
  intros H; inversion H; subst d; simpl.
  exists p, s. repeat split; assumption.
Qed.

(** X1.  The push handler builds a document exactly when it can read
    [head_commit.id], [head_commit.timestamp], [pusher.name] and a [ref]
    that is a string.  Otherwise it reports the exception and returns the
    collection as it was, the store not having been called; a push whose
    [head_commit] is not a dict, as when a branch is deleted, ends in
    [TypeError], and one without the key in [KeyError]. *)
Theorem push_event_doc_readable :
  forall payload,
    ((exists d, push_event_doc payload = Ok d) <->
     (exists head_commit id time pusher name ref,
         getitem payload "head_commit" = Ok head_commit /\
         getitem head_commit "id" = Ok id /\
         getitem head_commit "timestamp" = Ok time /\
         getitem payload "pusher" = Ok pusher /\
         getitem pusher "name" = Ok name /\
         getitem payload "ref" = Ok (JStr ref))) /\
    (forall e c, push_event_doc payload = Raise e ->
                 handle_push_event payload c = (Failed e, c)) /\
    (forall head_commit,
        getitem payload "head_commit" = Ok head_commit ->
        (forall fields, head_commit <> JObj fields) ->
        push_event_doc payload = Raise TypeError) /\
    (forall fields,
        payload = JObj fields -> assoc "head_commit" fields = None ->
        push_event_doc payload = Raise (KeyError "head_commit")).
Proof.
  intros payload. split; [split|split; [|split]].
  - intros [d Hd].
    destruct (push_event_doc_inv _ _ Hd) as [_ [_ [h [Hh [Hid Ht]]]]].
    destruct (push_event_doc_ref _ _ Hd) as [p [r [Hp [Hn [Hr _]]]]].
    exists h, (request_id d), (timestamp d), p, (author d), r.
    repeat split; assumption.
  - intros [h [id [t [p [n [r [Hh [Hid [Ht [Hp [Hn Hr]]]]]]]]]]].
    unfold push_event_doc, rbind. rewrite Hh, Hid, Hp, Hn, Hr. simpl.
    rewrite Ht. eexists; reflexivity.
  - intros e c H. unfold handle_push_event, try_except, bind, lift.
    rewrite H. reflexivity.
  - intros h Hh Hno. unfold push_event_doc, rbind. rewrite Hh.
    destruct h; try reflexivity. exfalso. exact (Hno fields eq_refl).
  - intros fields -> Hnone. unfold push_event_doc, rbind. simpl.
    rewrite Hnone. reflexivity.
Qed.

Lemma push_event_doc_readable_witness :
  handle_push_event branch_deletion feed_example
    = (Failed TypeError, feed_example).
Proof.
  apply (proj1 (proj2 (push_event_doc_readable branch_deletion))).
  apply (proj1 (proj2 (proj2 (push_event_doc_readable branch_deletion)))
           JNull).
  - reflexivity.
  - discriminate.
Defined.

(** ** The branch of a ref *)

Lemma split_after_sep (sep : ascii) (b : string) :
  forall a,
    exists seg segs,
      split sep (a ++ String sep b) = seg :: segs /\ segs <> [] /\
      last_item (seg :: segs) = last_item (split sep b).
Proof.
  pose proof (split_nonempty sep b) as Hb.
  induction a as [|c a IH].
  - simpl. rewrite Ascii.eqb_refl. exists EmptyString, (split sep b).
    split; [reflexivity|]. split; [exact Hb|].
    unfold last_item. destruct (split sep b); [congruence | reflexivity].
  - destruct IH as [seg [segs [E [Hne Hl]]]].
    cbn [append split]. rewrite E.
    destruct (Ascii.eqb c sep).
    + exists EmptyString, (seg :: segs). split; [reflexivity|].
      split; [discriminate|]. rewrite <- Hl. reflexivity.
    + exists (String c seg), segs. split; [reflexivity|].
      split; [exact Hne|]. rewrite <- Hl. unfold last_item.
      destruct segs; [congruence | reflexivity].
Qed.

Lemma split_whole (sep : ascii) (s : string) :
  ~ has_char sep s -> split sep s = [s].
Proof.
  unfold has_char. induction s as [|c s IH]; intros H; simpl.
  - reflexivity.
  - destruct (Ascii.eqb c sep) eqn:E.
    + apply Ascii.eqb_eq in E. exfalso. apply H. left. exact E.
    + rewrite IH; [reflexivity|]. intros Hin. apply H. right. exact Hin.
Qed.

(** X2.  The target branch is what follows the last ["/"] of the ref and
    nothing more: under any prefix such as ["refs/heads"], a branch name
    comes back whole exactly when it has no ["/"] of its own, and otherwise
    only its last part is kept. *)
Theorem to_branch_of_prefixed_ref :
  forall prefix name,
    last_item (split "/" (prefix ++ String "/" name))
      = last_item (split "/" name) /\
    (last_item (split "/" (prefix ++ String "/" name)) = name <->
     ~ has_char "/" name).
Proof.
  intros prefix name.
  destruct (split_after_sep "/" name prefix) as [seg [segs [E [_ Hl]]]].
  assert (H : last_item (split "/" (prefix ++ String "/" name))
              = last_item (split "/" name)) by (rewrite E; exact Hl).
  split; [exact H|]. rewrite H. split.
  - intros Heq. rewrite <- Heq. apply split_last_segment.
  - intros Hno. rewrite (split_whole _ _ Hno). reflexivity.
Qed.

(** ** Pull-request actions that store nothing *)

Section QuietPullRequests.

Variable py_repr : json -> string.

(** X3.  A pull-request notification that is neither "opened" nor
    "closed" with a true [merged], and whose fields (with [updated_at])
    can be read, is ignored: the handler reports the action and returns the
    collection as it was, the store not having been called. *)
Theorem other_actions_ignored :
  forall payload act pr id login head_ref base_ref updated c,
    getitem payload "action" = Ok act ->
    getitem payload "pull_request" = Ok pr ->
    pr_fields pr id login head_ref base_ref ->
    getitem pr "updated_at" = Ok updated ->
    eq_str act "opened" = false ->
    eq_str act "closed" && merged_true payload = false ->
    handle_pull_request_event py_repr payload c = (Ignored act, c).
Proof.
  intros payload act pr id login head_ref base_ref updated c
         Ha Hp [Hid [[user [Hu Hl]] [[head [Hh Hhr]] [base [Hb Hbr]]]]]
         Hup Ho Hc.
  assert (E : pull_request_event_doc py_repr payload = Ok (inl act)).
  { unfold pull_request_event_doc, rbind.
    rewrite Ha, Hp, Hid, Hu, Hl, Hh, Hhr, Hb, Hbr, Ho, Hup.
    rewrite (dict_get_of_dict pr "merged_at" "id" id updated Hid).
    unfold merged_true, rbind in Hc. rewrite Hp in Hc.
    destruct (eq_str act "closed") eqn:Ec.
    - rewrite (dict_get_of_dict pr "merged" "id" id (JBool false) Hid).
      simpl in Hc. destruct (getitem pr "merged") as [flag|]; simpl.
      + rewrite Hc. reflexivity.
      + reflexivity.
    - reflexivity. }
  unfold handle_pull_request_event, try_except, bind, lift.
  rewrite E. reflexivity.
Qed.

(** X4.  For any action other than "opened" the handler reads
    [updated_at] before it looks at [merged_at]: when the pull request has
    no [updated_at] the notification ends in [KeyError] and nothing is
    stored, a merge that carries its [merged_at] included. *)
Theorem updated_at_is_required :
  forall payload act pr id login head_ref base_ref c,
    getitem payload "action" = Ok act ->
    getitem payload "pull_request" = Ok pr ->
    pr_fields pr id login head_ref base_ref ->
    eq_str act "opened" = false ->
    (forall updated, getitem pr "updated_at" <> Ok updated) ->
    handle_pull_request_event py_repr payload c
      = (Failed (KeyError "updated_at"), c).
Proof.
  intros payload act pr id login head_ref base_ref c
         Ha Hp [Hid [[user [Hu Hl]] [[head [Hh Hhr]] [base [Hb Hbr]]]]]
         Ho Hno.
  assert (E : getitem pr "updated_at" = Raise (KeyError "updated_at")).
  { destruct pr; simpl in Hid; try discriminate. simpl in *.
    destruct (assoc "updated_at" fields) as [v|]; [|reflexivity].
    exfalso. exact (Hno v eq_refl). }
  unfold handle_pull_request_event, try_except, bind, lift.
  unfold pull_request_event_doc, rbind.
  rewrite Ha, Hp, Hid, Hu, Hl, Hh, Hhr, Hb, Hbr, Ho, E. reflexivity.
Qed.

End QuietPullRequests.

Lemma other_actions_ignored_witness :
  handle_pull_request_event plain_repr (closed_payload 123) feed_example
    = (Ignored (JStr "closed"), feed_example).
Proof.
  apply (other_actions_ignored plain_repr (closed_payload 123)
           (JStr "closed")
           (pull_request_object 123
              [("created_at", JStr "2024-01-01T00:00:00Z");
               ("updated_at", JStr "2024-06-01T00:00:05Z");
               ("merged_at", JNull);
               ("merged", JBool false)])
           (JInt 123) (JStr "octocat") (JStr "feature") (JStr "main")
           (JStr "2024-06-01T00:00:05Z")).
  - reflexivity.
  - reflexivity.
  - repeat split; eexists; split; reflexivity.
  - reflexivity.
  - reflexivity.
  - reflexivity.
Defined.

Lemma updated_at_is_required_witness :
  handle_pull_request_event plain_repr (merged_without_updated_at 123)
    empty_collection
    = (Failed (KeyError "updated_at"), empty_collection).
Proof.
  apply (updated_at_is_required plain_repr (merged_without_updated_at 123)
           (JStr "closed")
           (pull_request_object 123
              [("created_at", JStr "2024-01-01T00:00:00Z");
               ("merged_at", JStr "2024-06-01T00:00:00Z");
               ("merged", JBool true)])
           (JInt 123) (JStr "octocat") (JStr "feature") (JStr "main")).
  - reflexivity.
  - reflexivity.
  - repeat split; eexists; split; reflexivity.
  - reflexivity.
  - intros updated. discriminate.
Defined.

(** ** Keys of different pull requests *)

Lemma str_of_int_inj (n m : Z) : str_of_int n = str_of_int m -> n = m.
Proof.
  unfold str_of_int. intros H. apply DecimalZ.to_int_inj.
  assert (P : forall z, NilZero.int_of_string
                          (NilZero.string_of_int (Z.to_int z))
                        = Some (Z.to_int z)).
  { intros z. apply NilZero.isi; destruct z; simpl; try discriminate;
      intros E; inversion E as [E'];
      exact (DecimalPos.Unsigned.to_uint_nonnil _ E'). }
  pose proof (P n) as Pn. rewrite H, P in Pn. inversion Pn. reflexivity.
Qed.

Lemma append_inj_l (a b c : string) : a ++ b = a ++ c -> b = c.
Proof.
  induction a as [|x a IH]; simpl; intros H; [exact H|].
  inversion H. apply IH. assumption.
Qed.

Section PullRequestKeys.

Variable py_repr : json -> string.

Lemma pull_request_key (payload : json) (d : event_doc) (pr : json) (n : Z) :
  pull_request_event_doc py_repr payload = Ok (inr d) ->
  getitem payload "pull_request" = Ok pr ->
  getitem pr "id" = Ok (JInt n) ->
  request_id d = JStr ("pr_" ++ str_of_int n) \/
  request_id d = JStr ("merge_" ++ str_of_int n).
Proof.
  intros H Hp Hid.
  destruct (pull_request_event_doc_inv py_repr _ _ H)
    as [act [pr0 [id [login [hr [br [time [_ [Ep [Hf [_ Hr]]]]]]]]]]].
  rewrite Hp in Ep. inversion Ep; subst pr0.
  destruct Hf as [Hid' _]. rewrite Hid in Hid'. inversion Hid'; subst id.
  simpl py_str in Hr.
  destruct (eq_str act "closed" && merged_true payload).
  - inversion Hr; subst d. right; reflexivity.
  - destruct (eq_str act "opened"); inversion Hr; subst d.
    left; reflexivity.
Qed.

(** X5.  Notifications about pull requests with different integer ids
    never yield the same key, whatever their actions: the decimal text of
    the id is written after the prefix and tells the ids apart. *)
Theorem pull_request_keys_differ :
  forall payload payload' pr pr' n m d d',
    getitem payload "pull_request" = Ok pr ->
    getitem pr "id" = Ok (JInt n) ->
    getitem payload' "pull_request" = Ok pr' ->
    getitem pr' "id" = Ok (JInt m) ->
    pull_request_event_doc py_repr payload = Ok (inr d) ->
    pull_request_event_doc py_repr payload' = Ok (inr d') ->
    n <> m ->
    request_id d <> request_id d'.
Proof.
  intros payload payload' pr pr' n m d d' Hp Hn Hp' Hm Hd Hd' Hne Heq.
  destruct (pull_request_key _ _ _ _ Hd Hp Hn) as [K|K];
    destruct (pull_request_key _ _ _ _ Hd' Hp' Hm) as [K'|K'];
    rewrite K, K' in Heq; inversion Heq as [E].
  - apply Hne. apply str_of_int_inj.
    exact (append_inj_l "pr_" _ _ (f_equal (fun s => "pr_" ++ s) E)).
  - apply Hne. apply str_of_int_inj.
    exact (append_inj_l "merge_" _ _ (f_equal (fun s => "merge_" ++ s) E)).
Qed.

End PullRequestKeys.

Lemma pull_request_keys_differ_witness :
  request_id (pull_request_doc PULL_REQUEST "pr_123" (JStr "octocat")
                (JStr "feature") (JStr "main") (JStr "2024-01-01T00:00:00Z"))
  <> request_id (pull_request_doc MERGE "merge_124" (JStr "octocat")
                   (JStr "feature") (JStr "main")
                   (JStr "2024-06-01T00:00:00Z")).
Proof.
  apply (pull_request_keys_differ plain_repr
           (opened_payload 123) (merged_payload 124)
           (pull_request_object 123
              [("created_at", JStr "2024-01-01T00:00:00Z");
               ("updated_at", JStr "2024-01-01T00:00:00Z");
               ("merged_at", JNull);
               ("merged", JBool false)])
           (pull_request_object 124
              [("created_at", JStr "2024-01-01T00:00:00Z");
               ("updated_at", JStr "2024-06-01T00:00:05Z");
               ("merged_at", JStr "2024-06-01T00:00:00Z");
               ("merged", JBool true)])
           123 124);
    first [reflexivity | discriminate].
Defined.

(** ** What a run of notifications does to the collection *)

Lemma normalize_shape (py_repr : json -> string) (req : request)
      (d : event_doc) :
  normalize py_repr req = Some d -> stored_shape d.
Proof.
  unfold normalize. destruct (json_body req) as [payload|]; [|discriminate].
  destruct (header_is (github_event req) "push").
  - destruct (push_event_doc payload) as [d'|] eqn:E; [|discriminate].
    intros H; inversion H; subst d'.
    destruct (push_event_doc_inv _ _ E) as [Ha [Hf _]].
    destruct (push_event_doc_ref _ _ E) as [p [r [_ [_ [_ Hb]]]]].
    unfold stored_shape. rewrite Ha. split; [exact Hf|].
    exists (last_item (split "/" r)). split; [exact Hb|].
    apply split_last_segment.
  - destruct (header_is (github_event req) "pull_request"); [|discriminate].
    destruct (pull_request_event_doc py_repr payload) as [[a|d']|] eqn:E;
      try discriminate.
    intros H; inversion H; subst d'.
    destruct (pull_request_event_doc_inv py_repr _ _ E)
      as [act [pr [id [login [hr [br [time [_ [_ [_ [_ Hr]]]]]]]]]]].
    unfold stored_shape.
    destruct (eq_str act "closed" && merged_true payload).
    + inversion Hr; subst d. simpl. eexists; reflexivity.
    + destruct (eq_str act "opened"); inversion Hr; subst d.
      simpl. eexists; reflexivity.
Qed.

Section Runs.

Variable py_repr : json -> string.

(** X6.  The endpoint only ever appends: after any run of notifications,
    whatever the store answered, the documents held before are still
    there, unchanged and in place, followed by at most one new document per
    notification; and every notification got its response. *)
Theorem process_only_appends :
  forall reqs c,
    exists added,
      docs (snd (process py_repr reqs c)) = (docs c ++ added)%list /\
      (List.length added <= List.length reqs)%nat /\
      List.length (fst (process py_repr reqs c)) = List.length reqs.
Proof.
  induction reqs as [|req later IH]; intros c.
  - exists []. simpl. rewrite app_nil_r. repeat split; constructor.
  - cbn [process].
    destruct (webhook_grows py_repr req c) as [new [Hd Hnew]].
    destruct (webhook py_repr req c) as [r c1]. cbn [snd] in Hd.
    destruct (IH c1) as [added [Ha [Hl Hr]]].
    destruct (process py_repr later c1) as [rs c2]. cbn [fst snd] in *.
    exists (new ++ added)%list. rewrite Ha, Hd, app_assoc.
    split; [reflexivity|]. split; [|simpl; rewrite Hr; reflexivity].
    rewrite length_app. simpl.
    destruct Hnew as [->|[d [-> _]]]; simpl; lia.
Qed.

(** X7.  Every document the endpoint writes has the shape of its kind: a
    PUSH has a null source branch and a target branch that is a string
    without ["/"]; the key of a PULL_REQUEST is a string that starts with
    "pr_" and the key of a MERGE one that starts with "merge_".  A
    collection whose documents have it keeps it through any run. *)
Theorem process_keeps_shape :
  forall reqs c,
    Forall stored_shape (docs c) ->
    Forall stored_shape (docs (snd (process py_repr reqs c))).
Proof.
  induction reqs as [|req later IH]; intros c Hc; [exact Hc|].
  cbn [process].
  destruct (webhook_adds_normalized py_repr req c) as [new [[Hd _] Hn]].
  destruct (webhook py_repr req c) as [r c1]. cbn [snd] in Hd.
  assert (H1 : Forall stored_shape (docs c1)).
  { rewrite Hd. apply Forall_app. split; [exact Hc|].
    apply Forall_forall. intros d Hin.
    exact (normalize_shape py_repr req d (Hn d Hin)). }
  specialize (IH c1 H1).
  destruct (process py_repr later c1) as [rs c2]. exact IH.
Qed.

(** X8.  A notification that yields no document (unreadable body, other
    kind, ignored action, unreadable field) leaves the collection as it
    was without a call to the store; and on a server that answers, handling
    a second time a notification whose key is a string changes nothing at
    all. *)
Theorem webhook_idempotent :
  (forall req c,
      normalize py_repr req = None -> snd (webhook py_repr req c) = c) /\
  (forall req c,
      string_keyed py_repr req ->
      healthy c ->
      snd (webhook py_repr req (snd (webhook py_repr req c)))
        = snd (webhook py_repr req c)).
Proof.
  split; [exact (webhook_without_document py_repr)|].
  intros req c Hs Hh.
  destruct (normalize py_repr req) as [d|] eqn:E.
  - pose proof (Hs d E) as Hk.
    rewrite !(webhook_normalized py_repr req d _ E).
    destruct (in_dec json_eq_dec (request_id d) (keys c)) as [Hin|Hnin].
    + rewrite (store_event_present d c Hk Hh Hin). cbn [snd].
      rewrite (store_event_present d c Hk Hh Hin). reflexivity.
    + rewrite (store_event_absent d c Hk Hh Hnin). cbn [snd].
      assert (Hh' : healthy {| docs := (docs c ++ [d])%list; faults := [] |})
        by reflexivity.
      rewrite (store_event_present d _ Hk Hh'); [reflexivity|].
      unfold keys. cbn [docs]. rewrite map_app. apply in_or_app.
      right. left. reflexivity.
  - rewrite !(webhook_without_document py_repr req _ E). reflexivity.
Qed.

End Runs.

Lemma process_keeps_shape_witness :
  Forall stored_shape
    (docs (snd (process plain_repr
                  [push_request example_push;
                   pull_request_request (opened_payload 123);
                   pull_request_request (merged_payload 123)]
                  empty_collection))).
Proof.
  apply (process_keeps_shape plain_repr). constructor.
Defined.

Lemma webhook_idempotent_witness :
  snd (webhook plain_repr (push_request example_push)
         (snd (webhook plain_repr (push_request example_push)
                 empty_collection)))
  = snd (webhook plain_repr (push_request example_push) empty_collection).
Proof.
  apply (proj2 (webhook_idempotent plain_repr)).
  - intros d H. inversion H. exact I.
  - reflexivity.
Defined.

(** ** The feed endpoint *)

Lemma sort_desc_length (l : list event_doc) :
  List.length (sort_desc l) = List.length l.
Proof. apply Permutation_length. apply sort_desc_perm. Qed.

Section Feed.

Variable py_repr : json -> string.
Variable fromisoformat : string -> option datetime.

(** X9.  The feed never changes the documents.  It lists all of them, as
    many events as there are documents, when the store answers, and when
    the store raises it reports the store's message as an error instead of
    a list: so far the webhook's handlers and the feed differ. *)
Theorem get_events_reads_or_fails :
  forall c,
    docs (snd (get_events fromisoformat c)) = docs c /\
    (answered c ->
     exists evs, fst (get_events fromisoformat c) = Events evs /\
                 List.length evs = List.length (docs c)) /\
    (forall msg later,
        faults c = Some msg :: later ->
        get_events fromisoformat c
        = (EventsError msg, {| docs := docs c; faults := later |})).
Proof.
  intros [ds fs]. unfold get_events, find_sorted, bind, server_call, answered.
  cbn [docs faults]. split; [|split].
  - destruct fs as [|[msg|] fs]; reflexivity.
  - intros Ha. destruct fs as [|[msg|] fs]; try contradiction;
      (eexists; split; [reflexivity|]);
      cbn [docs]; rewrite length_map; apply sort_desc_length.
  - intros msg later ->. reflexivity.
Qed.


End Feed.

Lemma get_events_reads_or_fails_witness :
  get_events documented_fromisoformat
    {| docs := docs feed_example; faults := [Some "timed out"] |}
  = (EventsError "timed out", feed_example).
Proof.
  apply (proj2 (proj2 (get_events_reads_or_fails documented_fromisoformat
                         {| docs := docs feed_example;
                            faults := [Some "timed out"] |}))).
  reflexivity.
Defined.


(** ** Timestamps that are always rendered *)

Lemma digit_of_digit_char (d : Z) :
  0 <= d <= 9 -> digit (digit_char d) = Some d.
Proof.
  intros H.
  assert (C : d = 0 \/ d = 1 \/ d = 2 \/ d = 3 \/ d = 4 \/ d = 5 \/
              d = 6 \/ d = 7 \/ d = 8 \/ d = 9) by lia.
  repeat (destruct C as [C|C]; [subst d; reflexivity|]).
  subst d; reflexivity.
Qed.

Lemma tens_units (n : Z) :
  0 <= n < 100 -> 0 <= n / 10 <= 9 /\ 0 <= n mod 10 <= 9 /\
                  n = 10 * (n / 10) + n mod 10.
Proof.
  intros H.
  pose proof (Z.mod_pos_bound n 10 ltac:(lia)).
  pose proof (Z.div_mod n 10 ltac:(lia)).
  assert (0 <= n / 10) by (apply Z.div_pos; lia).
  assert (n / 10 < 10) by (apply Z.div_lt_upper_bound; lia).
  lia.
Qed.

Lemma digits_two (n acc : Z) (rest : string) :
  0 <= n < 100 ->
  digits 2 acc (two_digits n ++ rest) = Some (100 * acc + n, rest).
Proof.
  intros H. destruct (tens_units n H) as [Hq [Hr Hn]].
  unfold two_digits. cbn [append digits].
  rewrite !digit_of_digit_char by assumption.
  f_equal. f_equal. lia.
Qed.

Lemma digits_plus (a b : nat) :
  forall acc s,
    digits (a + b) acc s =
    match digits a acc s with
    | Some (v, r) => digits b v r
    | None => None
    end.
Proof.
  induction a as [|a IH]; intros acc s; cbn [Nat.add digits].
  - reflexivity.
  - destruct s as [|c s]; [reflexivity|].
    destruct (digit c); [apply IH | reflexivity].
Qed.

Lemma hundreds (n base : Z) :
  0 < base -> 0 <= n < 100 * base ->
  0 <= n / base < 100 /\ 0 <= n mod base < base /\
  n = base * (n / base) + n mod base.
Proof.
  intros Hb H.
  pose proof (Z.mod_pos_bound n base Hb).
  pose proof (Z.div_mod n base ltac:(lia)).
  assert (0 <= n / base) by (apply Z.div_pos; lia).
  assert (n / base < 100) by (apply Z.div_lt_upper_bound; lia).
  lia.
Qed.

Lemma digits_four (n acc : Z) (rest : string) :
  0 <= n < 10000 ->
  digits 4 acc (four_digits n ++ rest) = Some (10000 * acc + n, rest).
Proof.
  intros H. destruct (hundreds n 100 ltac:(lia) ltac:(lia)) as [Hq [Hr Hn]].
  unfold four_digits. rewrite append_assoc.
  change 4%nat with (2 + 2)%nat. rewrite digits_plus.
  rewrite digits_two by assumption. rewrite digits_two by assumption.
  f_equal. f_equal. lia.
Qed.

Lemma digits_six (n : Z) (rest : string) :
  0 <= n < 1000000 ->
  digits 6 0 (six_digits n ++ rest) = Some (n, rest).
Proof.
  intros H.
  destruct (hundreds n 10000 ltac:(lia) ltac:(lia)) as [Hq [Hr Hn]].
  unfold six_digits. rewrite append_assoc.
  change 6%nat with (2 + 4)%nat. rewrite digits_plus.
  rewrite digits_two by assumption. rewrite digits_four by assumption.
  f_equal. f_equal. lia.
Qed.

Lemma append_nil_r (s : string) : s ++ EmptyString = s.
Proof. induction s as [|c s IH]; simpl; [reflexivity | rewrite IH; reflexivity]. Qed.

Lemma has_char_append_iff (c : ascii) (a b : string) :
  has_char c (a ++ b) <-> has_char c a \/ has_char c b.
Proof.
  unfold has_char. induction a as [|x a IH]; simpl.
  - split; [intros H; right; exact H | intros [[]|H]; exact H].
  - rewrite IH. tauto.
Qed.

Lemma has_char_two_digits (c : ascii) (n : Z) :
  0 <= n < 100 -> has_char c (two_digits n) -> digit c <> None.
Proof.
  intros H Hc. destruct (tens_units n H) as [Hq [Hr _]].
  unfold has_char, two_digits in Hc. simpl in Hc.
  destruct Hc as [<-|[<-|[]]]; rewrite digit_of_digit_char by assumption;
    discriminate.
Qed.

Lemma has_char_four_digits (c : ascii) (n : Z) :
  0 <= n < 10000 -> has_char c (four_digits n) -> digit c <> None.
Proof.
  intros H Hc. destruct (hundreds n 100 ltac:(lia) ltac:(lia)) as [Hq [Hr _]].
  unfold four_digits in Hc. apply has_char_append_iff in Hc.
  destruct Hc as [Hc|Hc].
  - apply (has_char_two_digits c (n / 100)); [lia | exact Hc].
  - apply (has_char_two_digits c (n mod 100)); [lia | exact Hc].
Qed.

Lemma has_char_six_digits (c : ascii) (n : Z) :
  0 <= n < 1000000 -> has_char c (six_digits n) -> digit c <> None.
Proof.
  intros H Hc.
  destruct (hundreds n 10000 ltac:(lia) ltac:(lia)) as [Hq [Hr _]].
  unfold six_digits in Hc. apply has_char_append_iff in Hc.
  destruct Hc as [Hc|Hc].
  - apply (has_char_two_digits c (n / 10000)); [lia | exact Hc].
  - apply (has_char_four_digits c (n mod 10000)); [lia | exact Hc].
Qed.

Lemma replace_Z_cons (new : string) (c : ascii) (rest : string) :
  c <> "Z"%char ->
  replace "Z" new (String c rest) = String c (replace "Z" new rest).
Proof.
  intros H. unfold replace. cbn [replace_from String.prefix].
  destruct (ascii_dec "Z" c) as [E|_]; [congruence | reflexivity].
Qed.

Lemma replace_Z_append (new a b : string) :
  ~ has_char "Z" a ->
  replace "Z" new (a ++ b) = a ++ replace "Z" new b.
Proof.
  unfold has_char. induction a as [|c a IH]; intros H; [reflexivity|].
  cbn [append]. rewrite replace_Z_cons.
  - rewrite IH; [reflexivity|]. intros Hin. apply H. right. exact Hin.
  - intros ->. apply H. left. reflexivity.
Qed.

Lemma split_sign_append (a b : string) :
  ~ has_char "+" a -> ~ has_char "-" a ->
  split_sign (a ++ String "+" b) = (a, Some (false, b)).
Proof.
  unfold has_char. induction a as [|c a IH]; intros Hp Hm.
  - reflexivity.
  - cbn [append split_sign].
    destruct (Ascii.eqb c "+") eqn:E1.
    { apply Ascii.eqb_eq in E1. exfalso. apply Hp. left. congruence. }
    destruct (Ascii.eqb c "-") eqn:E2.
    { apply Ascii.eqb_eq in E2. exfalso. apply Hm. left. congruence. }
    rewrite IH; [reflexivity | |]; intros Hin; [apply Hp | apply Hm];
      right; exact Hin.
Qed.

(** The text of the time of day, with its microseconds when there are
    some, is read back as it was written. *)
Lemma parse_time_of_day (h mi s us : Z) :
  0 <= h < 100 -> 0 <= mi < 100 -> 0 <= s < 100 -> 0 <= us < 1000000 ->
  parse_hh_mm_ss_ff
    (two_digits h ++ ":" ++ two_digits mi ++ ":" ++ two_digits s
     ++ (if us =? 0 then EmptyString else "." ++ six_digits us))
  = Some (h, mi, s, us).
Proof.
  intros Hh Hmi Hs Hus. unfold parse_hh_mm_ss_ff.
  rewrite digits_two by assumption. cbn [append expect Ascii.eqb Bool.eqb].
  rewrite digits_two by assumption. cbn [append expect Ascii.eqb Bool.eqb].
  rewrite digits_two by assumption.
  destruct (us =? 0) eqn:E.
  - apply Z.eqb_eq in E. subst us. repeat f_equal; lia.
  - cbn [append expect Ascii.eqb Bool.eqb]. unfold parse_fraction.
    rewrite <- (append_nil_r (six_digits us)).
    rewrite digits_six by assumption. repeat f_equal; lia.
Qed.

Lemma time_of_day_unsigned (c : ascii) (h mi s us : Z) :
  0 <= h < 100 -> 0 <= mi < 100 -> 0 <= s < 100 -> 0 <= us < 1000000 ->
  digit c = None -> c <> ":"%char -> c <> "."%char ->
  ~ has_char c
      (two_digits h ++ ":" ++ two_digits mi ++ ":" ++ two_digits s
       ++ (if us =? 0 then EmptyString else "." ++ six_digits us)).
Proof.
  intros Hh Hmi Hs Hus Hd Hc Hp H.
  repeat (apply has_char_append_iff in H; destruct H as [H|H]);
    try (apply has_char_two_digits in H; [congruence | assumption]);
    try (unfold has_char in H; simpl in H; destruct H as [H|[]]; congruence).
  destruct (us =? 0).
  - destruct H.
  - apply has_char_append_iff in H. destruct H as [H|H].
    + unfold has_char in H; simpl in H; destruct H as [H|[]]; congruence.
    + apply has_char_six_digits in H; [congruence | assumption].
Qed.

Lemma calendar_valid_time (dt : datetime) :
  calendar dt -> valid_time (hour dt) (minute dt) (second dt) = true.
Proof.
  intros [_ [Hh [Hm Hs]]]. unfold valid_time.
  repeat (apply andb_true_iff; split); apply Z.leb_le; lia.
Qed.

(** What [isoformat] writes, with the ["Z"] the script and GitHub put
    after it, the documented grammar reads back once the ["Z"] is
    replaced. *)
Lemma fromisoformat_isoformat (dt : datetime) :
  clock_reading dt ->
  documented_fromisoformat (replace "Z" "+00:00" (isoformat dt ++ "Z")) =
  Some {| year := year dt; month := month dt; day := day dt;
          hour := hour dt; minute := minute dt; second := second dt;
          microsecond := microsecond dt; utcoffset := Some 0 |}.
Proof.
  intros [Hc Hus].
  destruct (calendar_ranges dt Hc) as [Ry [Rm [Rd [Rh [Ri Rs]]]]].
  assert (HZ : ~ has_char "Z" (isoformat dt)).
  { unfold isoformat. intros H.
    apply has_char_append_iff in H. destruct H as [H|H].
    { apply has_char_four_digits in H; [apply H; reflexivity | assumption]. }
    repeat (apply has_char_append_iff in H; destruct H as [H|H]);
      try (apply has_char_two_digits in H; [apply H; reflexivity | assumption]);
      try (unfold has_char in H; simpl in H; destruct H as [H|[]];
           discriminate).
    destruct (microsecond dt =? 0).
    - destruct H.
    - apply has_char_append_iff in H. destruct H as [H|H].
      + unfold has_char in H; simpl in H; destruct H as [H|[]]; discriminate.
      + apply has_char_six_digits in H; [apply H; reflexivity | assumption]. }
  rewrite (replace_Z_append "+00:00" _ "Z" HZ).
  change (replace "Z" "+00:00" "Z") with "+00:00".
  assert (Hparts :
    isoformat dt ++ "+00:00" =
    four_digits (year dt) ++ "-" ++ two_digits (month dt) ++ "-"
    ++ two_digits (day dt)
    ++ String "T"
         ((two_digits (hour dt) ++ ":" ++ two_digits (minute dt) ++ ":"
           ++ two_digits (second dt)
           ++ (if microsecond dt =? 0 then EmptyString
               else "." ++ six_digits (microsecond dt)))
          ++ String "+" "00:00")).
  { unfold isoformat. rewrite !append_assoc. reflexivity. }
  rewrite Hparts. clear Hparts.
  remember (two_digits (hour dt) ++ ":" ++ two_digits (minute dt) ++ ":"
            ++ two_digits (second dt)
            ++ (if microsecond dt =? 0 then EmptyString
                else "." ++ six_digits (microsecond dt))) as time eqn:Htime.
  unfold documented_fromisoformat, parse_isoformat_date.
  rewrite digits_four by assumption. cbn [append expect Ascii.eqb Bool.eqb].
  rewrite digits_two by assumption. cbn [append expect Ascii.eqb Bool.eqb].
  rewrite digits_two by assumption.
  change (skip_char (String "T" (time ++ String "+" "00:00")))
    with (time ++ String "+" "00:00").
  unfold parse_isoformat_time.
  rewrite split_sign_append
    by (subst time; apply time_of_day_unsigned;
        first [assumption | reflexivity | discriminate]).
  subst time. rewrite parse_time_of_day by assumption.
  change (parse_offset false "00:00") with (Some 0).
  destruct Hc as [Hd Ht].
  replace (10000 * 0 + year dt) with (year dt) by lia.
  replace (100 * 0 + month dt) with (month dt) by lia.
  replace (100 * 0 + day dt) with (day dt) by lia.
  rewrite Hd. rewrite (calendar_valid_time dt (conj Hd Ht)). reflexivity.
Qed.

Lemma ordinal_suffix_cases (d : Z) :
  ordinal_suffix d = "st" \/ ordinal_suffix d = "nd" \/
  ordinal_suffix d = "rd" \/ ordinal_suffix d = "th".
Proof.
  unfold ordinal_suffix. destruct ((d =? 11) || (d =? 12) || (d =? 13)).
  - right; right; right; reflexivity.
  - repeat match goal with
           | |- context [match ?x with _ => _ end] => destruct x
           end; auto.
Qed.

(** A rendering does not begin with four digits: its third character is
    the first letter of the suffix. *)
Lemma rendering_no_year (dt : datetime) :
  0 <= day dt < 100 ->
  digits 4 0 (replace "Z" "+00:00" (rendering dt)) = None.
Proof.
  intros Hd. destruct (tens_units _ Hd) as [Hq [Hr _]].
  assert (NZ : forall d, 0 <= d <= 9 -> digit_char d <> "Z"%char).
  { intros d Hdd E. pose proof (digit_of_digit_char d Hdd) as D.
    rewrite E in D. discriminate. }
  unfold rendering, two_digits. cbn [append].
  rewrite !replace_Z_cons by (apply NZ; assumption).
  cbn [digits].
  rewrite !digit_of_digit_char by assumption.
  destruct (ordinal_suffix_cases (day dt)) as [-> | [-> | [-> | ->] ] ];
    cbn [append]; rewrite replace_Z_cons by discriminate; reflexivity.
Qed.

Section RenderedTimestamps.

Variable fromisoformat : string -> option datetime.
Hypothesis reads : reads_iso fromisoformat.



(** X13.  What [format_timestamp] does in every case: a value that is not
    a string, and a string that [fromisoformat] does not read, come back as
    they are; a string that it reads comes back as the text [strftime]
    makes of the format of line 188, the [replace] of line 189 changing
    nothing of it. *)
Theorem format_timestamp_cases :
  (forall v, (forall s, v <> JStr s) -> format_timestamp fromisoformat v = v) /\
  (forall s,
      fromisoformat (replace "Z" "+00:00" s) = None ->
      format_timestamp fromisoformat (JStr s) = JStr s) /\
  (forall s dt,
      fromisoformat (replace "Z" "+00:00" s) = Some dt ->
      format_timestamp fromisoformat (JStr s) =
      JStr (strftime dt ("%d" ++ suffix (day dt) ++ " %B %Y - %I:%M %p UTC"))) /\
  (forall old text, old <> EmptyString -> replace old old text = text).
Proof.
  split; [|split; [|split]].
  - intros v Hv. destruct v; try reflexivity. exfalso. exact (Hv s eq_refl).
  - intros s H. unfold format_timestamp. rewrite H. reflexivity.
  - intros s dt H. unfold format_timestamp. rewrite H.
    rewrite replace_same by apply suffix_nonempty. reflexivity.
  - exact replace_same.
Qed.

Lemma rendering_not_read (dt : datetime) :
  0 <= day dt < 100 ->
  fromisoformat (replace "Z" "+00:00" (rendering dt)) = None.
Proof.
  intros Hd.
  destruct (fromisoformat (replace "Z" "+00:00" (rendering dt)))
    as [dt'|] eqn:E; [|reflexivity].
  exfalso. exact (reads_year_first _ reads _ _ E (rendering_no_year dt Hd)).
Qed.


End RenderedTimestamps.



Lemma format_timestamp_cases_witness :
  format_timestamp documented_fromisoformat (JStr "yesterday")
  = JStr "yesterday" /\
  format_timestamp documented_fromisoformat JNull = JNull.
Proof.
  split.
  - apply (proj1 (proj2 (format_timestamp_cases documented_fromisoformat))).
    reflexivity.
  - apply (proj1 (format_timestamp_cases documented_fromisoformat)).
    discriminate.
Defined.


(** ** The script [test.py] *)

Lemma test_script_healthy (now now' : datetime) (c : collection) :
  healthy c ->
  test_script now now' c =
  (Ok tt, {| docs := (docs c ++ [test_event now; test_pr now'])%list;
             faults := [] |}).
Proof.
  unfold healthy. destruct c as [ds fs]. cbn [faults docs]. intros ->.
  unfold test_script, insert_one, bind, server_call. cbn [faults docs].
  rewrite <- app_assoc. reflexivity.
Qed.

(** X15.  The script inserts its two documents without looking their keys
    up: on a server that answers they are appended whatever the collection
    holds, so a second run leaves the keys of the collection no longer
    distinct; and as nothing catches the errors of the store, one raised by
    the second insert ends the run with the first document already
    written. *)
Theorem test_script_inserts_blindly :
  (forall now now' c,
      healthy c ->
      docs (snd (test_script now now' c))
        = (docs c ++ [test_event now; test_pr now'])%list) /\
  (forall now now' again again' c,
      healthy c ->
      ~ NoDup (keys (snd (test_script again again'
                            (snd (test_script now now' c)))))) /\
  (forall now now' c msg later,
      faults c = None :: Some msg :: later ->
      test_script now now' c =
      (Raise (StoreError msg),
       {| docs := (docs c ++ [test_event now])%list; faults := later |})).
Proof.
  split; [|split].
  - intros now now' c Hh. rewrite (test_script_healthy now now' c Hh).
    reflexivity.
  - intros now now' again again' c Hh.
    rewrite (test_script_healthy now now' c Hh). cbn [snd].
    rewrite test_script_healthy by reflexivity. cbn [snd docs].
    unfold keys. cbn [docs]. rewrite !map_app. cbn [map request_id test_event test_pr].
    intros Hnd. apply NoDup_remove_2 in Hnd.
    apply Hnd. apply in_or_app. left.
    apply in_or_app. right. left. reflexivity.
  - intros now now' [ds fs] msg later. cbn [faults docs]. intros ->.
    reflexivity.
Qed.

Lemma test_script_inserts_blindly_witness :
  ~ NoDup (keys (snd (test_script noon noon
                        (snd (test_script noon noon empty_collection))))).
Proof.
  apply (proj1 (proj2 test_script_inserts_blindly)). reflexivity.
Defined.

(** ** Redelivery after an error of the store *)

Section Redelivery.

Variable py_repr : json -> string.


End Redelivery.

